(** * A shallow embedding of the resolvers of mern-server-example

    The model follows [src/resolvers.js] (the resolver module served behind the
    [express-jwt] middleware of [src/index.js]); the variant resolver of
    [src/index.js] is embedded where it differs ([likePost_index]).

    - The document store (MongoDB) is an explicit [World]: the [users] and
      [posts] collections, the driver's ObjectID generator, the clock, the
      shared JWT secret, a fault switch (when [fault = Some m] every store
      call rejects with an error whose message is [m]) and a count of the
      store calls issued.
    - An async resolver is a state-and-exception computation [M A] over the
      world: it either returns a value or rejects with an [Err].
    - Password hashing and the HMAC of token signatures are black boxes
      (Section variables). *)

From Stdlib Require Import String Ascii ZArith List Bool Lia Sorted Permutation.
Import ListNotations.
Open Scope string_scope.

(** ** JavaScript errors *)

Inductive ErrKind :=
| MongoError | BSONError | TypeError | UserInputError
| JsonWebTokenError | TokenExpiredError
| PlainError (* [new Error(message)] *).

Record Err := mkErr { e_kind : ErrKind; e_message : string }.

(** Result of an async function: resolved value or rejection. *)
Inductive Outcome (A : Type) :=
| Ok (a : A)
| Exn (e : Err).
Arguments Ok {A} a.
Arguments Exn {A} e.

(** [s.indexOf(sub) >= 0] *)
Definition indexOf_ge0 (s sub : string) : bool :=
  match String.index 0 sub s with Some _ => true | None => false end.

(** ** Documents and the world *)

Record Post := mkPost {
  p_id : string;              (* _id, as its 24-digit lowercase hex form *)
  p_title : option string;
  p_content : option string;
  p_createdAt : Z;
  p_updatedAt : Z;
  p_author : string;
  p_likes : Z
}.

Record User := mkUser {
  u_id : string;
  u_userName : string;
  u_password : string          (* bcrypt hash *)
}.

Record World := mkWorld {
  users : list User;
  posts : list Post;
  oid_counter : nat;           (* state of the driver's ObjectID generator *)
  now : Z;                     (* Date.now(), milliseconds *)
  jwt_secret : string;         (* process.env.JWT_SECRET *)
  fault : option string;       (* Some m: the store rejects every call with m *)
  store_calls : nat
}.

Definition set_posts (ps : list Post) (w : World) : World :=
  mkWorld (users w) ps (oid_counter w) (now w) (jwt_secret w) (fault w) (store_calls w).
Definition set_users (us : list User) (w : World) : World :=
  mkWorld us (posts w) (oid_counter w) (now w) (jwt_secret w) (fault w) (store_calls w).
Definition bump_counter (w : World) : World :=
  mkWorld (users w) (posts w) (S (oid_counter w)) (now w) (jwt_secret w) (fault w) (store_calls w).
Definition bump_calls (w : World) : World :=
  mkWorld (users w) (posts w) (oid_counter w) (now w) (jwt_secret w) (fault w) (S (store_calls w)).

(** ** The resolver monad *)

Definition M (A : Type) : Type := World -> Outcome A * World.

Definition ret {A} (a : A) : M A := fun w => (Ok a, w).
Definition throw {A} (e : Err) : M A := fun w => (Exn e, w).
Definition bind {A B} (m : M A) (k : A -> M B) : M B := fun w =>
  match m w with
  | (Ok a, w') => k a w'
  | (Exn e, w') => (Exn e, w')
  end.
Definition try_catch {A} (m : M A) (h : Err -> M A) : M A := fun w =>
  match m w with
  | (Ok a, w') => (Ok a, w')
  | (Exn e, w') => h e w'
  end.
Definition get_world : M World := fun w => (Ok w, w).

Notation "x <- m ;; k" := (bind m (fun x => k))
  (at level 61, m at next level, right associativity).

(** ** ObjectID (bson) *)

Definition is_hex_digit (c : ascii) : bool :=
  let n := nat_of_ascii c in
  (((48 <=? n) && (n <=? 57)) || ((97 <=? n) && (n <=? 102))
  || ((65 <=? n) && (n <=? 70)))%nat.

Fixpoint all_hex (s : string) : bool :=
  match s with
  | EmptyString => true
  | String c r => is_hex_digit c && all_hex r
  end.

(** [/^[0-9a-fA-F]{24}$/] *)
Definition checkForHexRegExp (s : string) : bool :=
  (String.length s =? 24)%nat && all_hex s.

Definition hex_digit (n : nat) : ascii :=
  ascii_of_nat (if n <? 10 then 48 + n else 87 + n)%nat.

Definition lower_ascii (c : ascii) : ascii :=
  let n := nat_of_ascii c in
  if ((65 <=? n) && (n <=? 90))%nat then ascii_of_nat (n + 32)%nat else c.

Fixpoint lower_string (s : string) : string :=
  match s with
  | EmptyString => EmptyString
  | String c r => String (lower_ascii c) (lower_string r)
  end.

Fixpoint bytes_to_hex (s : string) : string :=
  match s with
  | EmptyString => EmptyString
  | String c r =>
      String (hex_digit (nat_of_ascii c / 16)%nat)
        (String (hex_digit (nat_of_ascii c mod 16)%nat) (bytes_to_hex r))
  end.

(** [new ObjectID(s)] for a string [s]: a 24-hex-digit string or a 12-byte
    string is accepted (the id is kept as its lowercase hex form); anything
    else throws. *)
Definition objectid_of_string (s : string) : Outcome string :=
  if checkForHexRegExp s then Ok (lower_string s)
  else if (String.length s =? 12)%nat then Ok (bytes_to_hex s)
  else Exn (mkErr BSONError
    "Argument passed in must be a single String of 12 bytes or a string of 24 hex characters").

Fixpoint hex_fixed (k n : nat) (acc : string) : string :=
  match k with
  | O => acc
  | S k' => hex_fixed k' (n / 16)%nat (String (hex_digit (n mod 16)%nat) acc)
  end.

(** The id produced by the driver's generator in state [n]. *)
Definition gen_oid (n : nat) : string := hex_fixed 24 n EmptyString.

Definition generate_oid : M string := fun w => (Ok (gen_oid (oid_counter w)), bump_counter w).

(** [ObjectID(v)] for a JavaScript value [v]: [undefined]/[null] generates a
    fresh id. *)
Definition ObjectID (v : option string) : M string :=
  match v with
  | None => generate_oid
  | Some s => fun w => (objectid_of_string s, w)
  end.

(** ** Store calls

    Every store call is counted; under a fault it rejects without effect. *)

Definition store_call {A} (f : World -> Outcome A * World) : M A := fun w =>
  let w1 := bump_calls w in
  match fault w with
  | Some m => (Exn (mkErr MongoError m), w1)
  | None => f w1
  end.

Definition find_post (o : string) (ps : list Post) : option Post :=
  find (fun p => String.eqb (p_id p) o) ps.

Definition find_user_id (o : string) (us : list User) : option User :=
  find (fun u => String.eqb (u_id u) o) us.

Definition find_user_name (n : string) (us : list User) : option User :=
  find (fun u => String.eqb (u_userName u) n) us.

Record InsertResult := mkInsertResult { insertedId : string; insertedCount : nat }.
Record DeleteResult := mkDeleteResult { deletedCount : nat }.

Definition duplicate_key (coll : string) : Err :=
  mkErr MongoError ("E11000 duplicate key error collection: demo_news." ++ coll ++ " index: _id_ dup key").

(** [posts.insertOne(doc)]: the driver adds a generated [_id]; the unique
    index on [_id] rejects a clash. *)
Definition posts_insertOne (doc : string -> Post) : M InsertResult :=
  store_call (fun w =>
    let id := gen_oid (oid_counter w) in
    let w' := bump_counter w in
    match find_post id (posts w') with
    | Some _ => (Exn (duplicate_key "posts"), w')
    | None => (Ok (mkInsertResult id 1), set_posts (posts w' ++ [doc id]) w')
    end).

(** [posts.findOne({ _id: o })] *)
Definition posts_findOne (o : string) : M (option Post) :=
  store_call (fun w => (Ok (find_post o (posts w)), w)).

Fixpoint delete_first (o : string) (ps : list Post) : option (list Post) :=
  match ps with
  | [] => None
  | p :: r =>
      if String.eqb (p_id p) o then Some r
      else option_map (cons p) (delete_first o r)
  end.

(** [posts.deleteOne({ _id: o })] *)
Definition posts_deleteOne (o : string) : M DeleteResult :=
  store_call (fun w =>
    match delete_first o (posts w) with
    | Some ps => (Ok (mkDeleteResult 1), set_posts ps w)
    | None => (Ok (mkDeleteResult 0), w)
    end).

Fixpoint update_first (o : string) (g : Post -> Post) (ps : list Post)
  : option (Post * list Post) :=
  match ps with
  | [] => None
  | p :: r =>
      if String.eqb (p_id p) o then Some (p, g p :: r)
      else option_map (fun '(q, r') => (q, p :: r')) (update_first o g r)
  end.

(** [posts.findOneAndUpdate({ _id: o }, update, { returnOriginal })]:
    the [value] field of the result. *)
Definition posts_findOneAndUpdate (o : string) (g : Post -> Post)
    (returnOriginal : bool) : M (option Post) :=
  store_call (fun w =>
    match update_first o g (posts w) with
    | Some (p, ps) => (Ok (Some (if returnOriginal then p else g p)), set_posts ps w)
    | None => (Ok None, w)
    end).

(** [users.findOne({ _id: o })] *)
Definition users_findOne_id (o : string) : M (option User) :=
  store_call (fun w => (Ok (find_user_id o (users w)), w)).

(** [users.findOne({ userName: n })] *)
Definition users_findOne_name (n : string) : M (option User) :=
  store_call (fun w => (Ok (find_user_name n (users w)), w)).

(** [users.insertOne(doc)] *)
Definition users_insertOne (doc : string -> User) : M InsertResult :=
  store_call (fun w =>
    let id := gen_oid (oid_counter w) in
    let w' := bump_counter w in
    match find_user_id id (users w') with
    | Some _ => (Exn (duplicate_key "users"), w')
    | None => (Ok (mkInsertResult id 1), set_users (users w' ++ [doc id]) w')
    end).

(** Descending insertion by [createdAt] (ties: MongoDB leaves their order
    unspecified; here an inserted document goes after equal ones). *)
Fixpoint insert_desc (p : Post) (l : list Post) : list Post :=
  match l with
  | [] => [p]
  | q :: r => if (p_createdAt q <? p_createdAt p)%Z then p :: l else q :: insert_desc p r
  end.

Fixpoint sort_createdAt_desc (l : list Post) : list Post :=
  match l with
  | [] => []
  | p :: r => insert_desc p (sort_createdAt_desc r)
  end.

(** [posts.find({}, { skip, limit }).toArray()], with an optional
    [.sort({ createdAt: -1 })] (a cursor sorts before it skips and limits).
    A negative [skip] is refused by the server; a negative [limit] returns
    at most [|limit|] documents. *)
Definition posts_find (sorted : bool) (skip limit : Z) : M (list Post) :=
  store_call (fun w =>
    if (skip <? 0)%Z then (Exn (mkErr MongoError "skip value must be non-negative"), w)
    else
      let docs := if sorted then sort_createdAt_desc (posts w) else posts w in
      (Ok (firstn (Z.to_nat (Z.abs limit)) (skipn (Z.to_nat skip) docs)), w)).

(** JavaScript truthiness of an optional [Int] argument. *)
Definition truthy_int (o : option Z) : bool :=
  match o with Some n => negb (n =? 0)%Z | None => false end.

(** JavaScript truthiness of an optional string. *)
Definition truthy_str (o : option string) : bool :=
  match o with Some s => negb (String.eqb s EmptyString) | None => false end.

(** ** GraphQL values *)

(** A value of the GraphQL [Post] type: the stored fields (author as its
    stored reference) and the envelope fields. *)
Record PostResp := mkPostResp {
  r_id : option string;
  r_title : option string;
  r_content : option string;
  r_author : option string;
  r_likes : option Z;
  r_createdAt : option Z;
  r_updatedAt : option Z;
  r_success : option bool;
  r_message : option string
}.

(** [{ success, message }] *)
Definition envelope (success : bool) (message : string) : PostResp :=
  mkPostResp None None None None None None None (Some success) (Some message).

(** [{ ...post, id: post._id }] *)
Definition post_fields (p : Post) : PostResp :=
  mkPostResp (Some (p_id p)) (p_title p) (p_content p) (Some (p_author p))
    (Some (p_likes p)) (Some (p_createdAt p)) (Some (p_updatedAt p)) None None.

(** [{ ...post, id: post._id, success: true, message }] *)
Definition post_success (p : Post) (message : string) : PostResp :=
  mkPostResp (Some (p_id p)) (p_title p) (p_content p) (Some (p_author p))
    (Some (p_likes p)) (Some (p_createdAt p)) (Some (p_updatedAt p))
    (Some true) (Some message).

(** A nullable field of a GraphQL input object as it reaches the resolver:
    left out of [args.data], sent as [null], or given. *)
Inductive InputField :=
| Absent
| Null
| Given (s : string).

(** The value a stored document shows for the field once written with
    [...args.data]: a field left out is missing, which reads back as
    [null] like an explicit [null]. *)
Definition field_value (f : InputField) : option string :=
  match f with
  | Given s => Some s
  | Absent | Null => None
  end.

(** [PostDataInput]: [args.data]. *)
Record PostData := mkPostData { d_title : InputField; d_content : InputField }.

(** The payload of a verified token ([req.user]). *)
Record Claims := mkClaims {
  c_id : option string;
  c_userId : option string;
  c_iat : Z;
  c_exp : option Z
}.

Definition null_read (field : string) : Err :=
  mkErr TypeError ("Cannot read properties of null (reading '" ++ field ++ "')").

(** ** jsonwebtoken and express-jwt

    A token is [header.payload.signature] with the HS256 header of
    jsonwebtoken. The payload serialisation is an injective, self-delimiting
    encoding of the claims standing in for base64url(JSON); the signature is
    [hmac secret signing_input] for an arbitrary [hmac]. *)

Module JWT.

Fixpoint enc_str (s : string) : string :=
  match s with
  | EmptyString => "z"
  | String c r => String "a"%char (String c (enc_str r))
  end.

Fixpoint dec_str (s : string) : option (string * string) :=
  match s with
  | EmptyString => None
  | String t r =>
      if Ascii.eqb t "z"%char then Some (EmptyString, r)
      else if Ascii.eqb t "a"%char then
        match r with
        | EmptyString => None
        | String c r' => option_map (fun '(x, rest) => (String c x, rest)) (dec_str r')
        end
      else None
  end.

Fixpoint enc_pos (p : positive) : string :=
  match p with
  | xI q => String "1"%char (enc_pos q)
  | xO q => String "0"%char (enc_pos q)
  | xH => "h"
  end.

Fixpoint dec_pos (s : string) : option (positive * string) :=
  match s with
  | EmptyString => None
  | String t r =>
      if Ascii.eqb t "h"%char then Some (xH, r)
      else if Ascii.eqb t "1"%char then option_map (fun '(q, rest) => (xI q, rest)) (dec_pos r)
      else if Ascii.eqb t "0"%char then option_map (fun '(q, rest) => (xO q, rest)) (dec_pos r)
      else None
  end.

Definition enc_Z (z : Z) : string :=
  match z with
  | Z0 => "0"
  | Zpos p => String "p"%char (enc_pos p)
  | Zneg p => String "n"%char (enc_pos p)
  end.

Definition dec_Z (s : string) : option (Z * string) :=
  match s with
  | EmptyString => None
  | String t r =>
      if Ascii.eqb t "0"%char then Some (Z0, r)
      else if Ascii.eqb t "p"%char then option_map (fun '(p, rest) => (Zpos p, rest)) (dec_pos r)
      else if Ascii.eqb t "n"%char then option_map (fun '(p, rest) => (Zneg p, rest)) (dec_pos r)
      else None
  end.

Definition enc_opt {A} (enc : A -> string) (o : option A) : string :=
  match o with
  | None => "N"
  | Some a => String "S"%char (enc a)
  end.

Definition dec_opt {A} (dec : string -> option (A * string)) (s : string)
  : option (option A * string) :=
  match s with
  | EmptyString => None
  | String t r =>
      if Ascii.eqb t "N"%char then Some (None, r)
      else if Ascii.eqb t "S"%char then option_map (fun '(a, rest) => (Some a, rest)) (dec r)
      else None
  end.

Definition enc_claims (c : Claims) : string :=
  enc_opt enc_str (c_id c) ++ enc_opt enc_str (c_userId c) ++ enc_Z (c_iat c)
  ++ enc_opt enc_Z (c_exp c).

Definition dec_claims (s : string) : option (Claims * string) :=
  match dec_opt dec_str s with
  | None => None
  | Some (i, s1) =>
      match dec_opt dec_str s1 with
      | None => None
      | Some (ui, s2) =>
          match dec_Z s2 with
          | None => None
          | Some (iat, s3) =>
              match dec_opt dec_Z s3 with
              | None => None
              | Some (e, s4) => Some (mkClaims i ui iat e, s4)
              end
          end
      end
  end.

(** base64url of [{"alg":"HS256","typ":"JWT"}] *)
Definition header_HS256 : string := "eyJhbGciOiJIUzI1NiIsInR5cCI6IkpXVCJ9".

Definition signing_input (c : Claims) : string := header_HS256 ++ "." ++ enc_claims c.

Fixpoint strip_prefix (p s : string) : option string :=
  match p with
  | EmptyString => Some s
  | String a p' =>
      match s with
      | EmptyString => None
      | String b s' => if Ascii.eqb a b then strip_prefix p' s' else None
      end
  end.

Section Token.
(** HMAC-SHA256 of the signing input under the secret. *)
Variable hmac : string -> string -> string.

(** [jwt.sign({ id, userId }, secret, { expiresIn })] at time [now_ms]:
    [iat] is the time in whole seconds, [exp = iat + expiresIn]. *)
Definition sign (id userId : option string) (secret : string) (expiresIn : option Z)
    (now_ms : Z) : string :=
  let iat := (now_ms / 1000)%Z in
  let c := mkClaims id userId iat (option_map (Z.add iat) expiresIn) in
  signing_input c ++ "." ++ hmac secret (signing_input c).

(** [jwt.verify(token, secret, { algorithms: ["HS256"] })] at time [now_ms]. *)
Definition verify (token secret : string) (now_ms : Z) : Outcome Claims :=
  match strip_prefix (header_HS256 ++ ".") token with
  | None => Exn (mkErr JsonWebTokenError "jwt malformed")
  | Some rest =>
      match dec_claims rest with
      | None => Exn (mkErr JsonWebTokenError "jwt malformed")
      | Some (c, EmptyString) => Exn (mkErr JsonWebTokenError "jwt malformed")
      | Some (c, String d sig) =>
          if Ascii.eqb d "."%char && String.eqb sig (hmac secret (signing_input c)) then
            match c_exp c with
            | Some e =>
                if (now_ms / 1000 >=? e)%Z then Exn (mkErr TokenExpiredError "jwt expired")
                else Ok c
            | None => Ok c
            end
          else Exn (mkErr JsonWebTokenError "invalid signature")
      end
  end.

End Token.
End JWT.

(** The outcome of the [express-jwt] middleware
    ([credentialsRequired: false]): no credential leaves [req.user]
    undefined; a credential that fails verification ends the request with an
    [UnauthorizedError] before any resolver runs. *)
Inductive AuthResult :=
| Anonymous
| Authenticated (c : Claims)
| Unauthorized (e : Err).

Definition expressJwt (hmac : string -> string -> string) (secret : string)
    (credential : option string) (now_ms : Z) : AuthResult :=
  match credential with
  | None => Anonymous
  | Some token =>
      match JWT.verify hmac token secret now_ms with
      | Ok c => Authenticated c
      | Exn e => Unauthorized e
      end
  end.

(** [AuthResponse] *)
Record AuthResponse := mkAuthResponse {
  a_token : option string;
  a_success : bool;
  a_message : option string
}.

Definition saltRounds : nat := 10.

(** ** Resolvers of [src/resolvers.js]: [Mutation] *)

Module Mutation.

(** [createPost] *)
Definition createPost (user : option Claims) (data : PostData) : M PostResp :=
  try_catch
    (match user with
     | None => ret (envelope false "User not found!")
     | Some u =>
         w <- get_world ;;
         author <- ObjectID (c_id u) ;;
         newPost <- posts_insertOne (fun id =>
           mkPost id (field_value (d_title data)) (field_value (d_content data))
           (now w) (now w) author 0) ;;
         if (insertedCount newPost =? 1)%nat then
           post <- posts_findOne (insertedId newPost) ;;
           match post with
           | None => throw (null_read "_id")
           | Some p => ret (post_success p "Post created successfully!")
           end
         else ret (envelope false "Post not found!")
     end)
    (fun _ => ret (envelope false "Something went wrong!")).

(** [deletePost] *)
Definition deletePost (user : option Claims) (where_id : option string) : M PostResp :=
  try_catch
    (match user with
     | None => ret (envelope false "User not found!")
     | Some _ =>
         o <- ObjectID where_id ;;
         r <- posts_deleteOne o ;;
         if (deletedCount r =? 1)%nat then ret (envelope true "Post delete successfully!")
         else ret (envelope false "Post does not exist!")
     end)
    (fun error =>
       if indexOf_ge0 (e_message error) "jwt"
       then ret (envelope false "Invalid Auth token!")
       else ret (envelope false "Something went wrong!")).

(** [{ $set: args.data }] *)
Definition set_data (data : PostData) (p : Post) : Post :=
  mkPost (p_id p)
    (match d_title data with Given t => Some t | Null => None | Absent => p_title p end)
    (match d_content data with Given c => Some c | Null => None | Absent => p_content p end)
    (p_createdAt p) (p_updatedAt p) (p_author p) (p_likes p).

(** [{ $inc: { likes: 1 } }] *)
Definition inc_likes (p : Post) : Post :=
  mkPost (p_id p) (p_title p) (p_content p) (p_createdAt p) (p_updatedAt p)
    (p_author p) (p_likes p + 1).

(** [updatePost] *)
Definition updatePost (user : option Claims) (data : PostData) (where_id : option string)
  : M PostResp :=
  try_catch
    (match user with
     | None => ret (envelope false "User not found!")
     | Some _ =>
         o <- ObjectID where_id ;;
         v <- posts_findOneAndUpdate o (set_data data) false ;;
         match v with
         | Some p => ret (post_success p "Post updated successfully!")
         | None => ret (envelope false "Post does not exist!")
         end
     end)
    (fun _ => ret (envelope false "Something went wrong!")).

(** [likePost] (no identity check in this module). *)
Definition likePost (user : option Claims) (where_id : option string) : M PostResp :=
  try_catch
    (o <- ObjectID where_id ;;
     v <- posts_findOneAndUpdate o inc_likes false ;;
     match v with
     | Some p => ret (post_success p "Post liked successfully!")
     | None => ret (envelope false "Post does not exist!")
     end)
    (fun _ => ret (envelope false "Something went wrong!")).

(** [likePost] as written in [src/index.js]: the same, behind the identity
    check. *)
Definition likePost_index (user : option Claims) (where_id : option string) : M PostResp :=
  try_catch
    (match user with
     | None => ret (envelope false "User not found!")
     | Some _ =>
         o <- ObjectID where_id ;;
         v <- posts_findOneAndUpdate o inc_likes false ;;
         match v with
         | Some p => ret (post_success p "Post liked successfully!")
         | None => ret (envelope false "Post does not exist!")
         end
     end)
    (fun _ => ret (envelope false "Something went wrong!")).

Section Auth.
(** bcrypt and the token signature, as black boxes. *)
Variable hmac : string -> string -> string.
Variable bcrypt_hash : string -> nat -> string.
Variable bcrypt_compare : string -> string -> bool.

(** [signUp] *)
Definition signUp (userName password : string) : M AuthResponse :=
  user <- users_findOne_name userName ;;
  match user with
  | None =>
      let hash := bcrypt_hash password saltRounds in
      newUser <- users_insertOne (fun id => mkUser id userName hash) ;;
      if (insertedCount newUser =? 1)%nat then
        w <- get_world ;;
        ret (mkAuthResponse
               (Some (JWT.sign hmac (Some (insertedId newUser)) None (jwt_secret w) None (now w)))
               true (Some "User created successfully!"))
      else ret (mkAuthResponse None false (Some "Something went wrong!"))
  | Some _ => ret (mkAuthResponse None false (Some "Username already exists!"))
  end.

(** [signIn]: [expiresIn: '1d'] is 86400 seconds. *)
Definition signIn (userName password : string) : M AuthResponse :=
  user <- users_findOne_name userName ;;
  match user with
  | None => throw (null_read "password")
  | Some u =>
      if bcrypt_compare password (u_password u) then
        w <- get_world ;;
        ret (mkAuthResponse
               (Some (JWT.sign hmac (Some (u_id u)) None (jwt_secret w) (Some 86400%Z) (now w)))
               true (Some "User signed in successfully!"))
      else ret (mkAuthResponse None false (Some "Invalid username or password!"))
  end.

End Auth.

End Mutation.

(** ** Resolvers of [src/resolvers.js]: [Query] *)

Record UserResp := mkUserResp { ur_id : string; ur_userName : string }.

(** What a resolver function hands back to GraphQL: a value, or an [Error]
    object returned as a value ([catch (error) { return error }]). *)
Inductive JsReturn (A : Type) :=
| RetValue (a : A)
| RetError (e : Err).
Arguments RetValue {A} a.
Arguments RetError {A} e.

Module Query.

(** [currentUser] *)
Definition currentUser (user : option Claims) : M (JsReturn UserResp) :=
  try_catch
    (match user with
     | None => throw (mkErr UserInputError "Invalid user id!")
     | Some u =>
         o <- ObjectID (c_id u) ;;
         cu <- users_findOne_id o ;;
         match cu with
         | None => throw (mkErr UserInputError "Invalid user id!")
         | Some x => ret (RetValue (mkUserResp (u_id x) (u_userName x)))
         end
     end)
    (fun error => ret (RetError error)).

(** [post] *)
Definition post (where_id : option string) : M PostResp :=
  o <- ObjectID where_id ;;
  p <- posts_findOne o ;;
  match p with
  | None => throw (mkErr UserInputError "Invalid post id!")
  | Some p => ret (post_fields p)
  end.

(** [posts(offset, limit)]: defaults 0 and 10, kept when the argument is
    falsy; newest first. *)
Definition posts (offset limit : option Z) : M (list PostResp) :=
  let offset' := match offset with Some n => if truthy_int offset then n else 0%Z | None => 0%Z end in
  let limit' := match limit with Some n => if truthy_int limit then n else 10%Z | None => 10%Z end in
  ps <- posts_find true offset' limit' ;;
  ret (map post_fields ps).

End Query.

(** ** Field resolver [Post.author] of [src/resolvers.js] *)

Module PostType.

(** [author]: the parent's [author] reference, looked up in [users]. *)
Definition author (parent : PostResp) : M UserResp :=
  o <- ObjectID (r_author parent) ;;
  user <- users_findOne_id o ;;
  match user with
  | None => throw (null_read "_id")
  | Some u => ret (mkUserResp (u_id u) (u_userName u))
  end.

End PostType.

(** ** The resolvers of [src/unnamed/part_000]

    This variant has no token middleware: each resolver calls [getUser] on
    the raw [Authorization] header inside its own [try] block, and tokens
    carry the account id as [userId]. *)

Module Legacy.

Section Legacy.
Variable hmac : string -> string -> string.
Variable bcrypt_hash : string -> nat -> string.
Variable bcrypt_compare : string -> string -> bool.

(** [getUser(req)]: [jwt.verify(req.headers['authorization'], secret)]. *)
Definition getUser (authorization : option string) : M Claims := fun w =>
  match authorization with
  | None | Some EmptyString => (Exn (mkErr JsonWebTokenError "jwt must be provided"), w)
  | Some t => (JWT.verify hmac t (jwt_secret w) (now w), w)
  end.

(** [createPost] *)
Definition createPost (authorization : option string) (data : PostData) : M PostResp :=
  try_catch
    (userObj <- getUser authorization ;;
     if truthy_str (c_userId userObj) then
       w <- get_world ;;
       author <- ObjectID (c_userId userObj) ;;
       newPost <- posts_insertOne (fun id =>
         mkPost id (field_value (d_title data)) (field_value (d_content data))
           (now w) (now w) author 0) ;;
       if (insertedCount newPost =? 1)%nat then
         post <- posts_findOne (insertedId newPost) ;;
         match post with
         | None => throw (null_read "_id")
         | Some p => ret (post_success p "Post created successfully!")
         end
       else ret (envelope false "Post not found!")
     else ret (envelope false "User not found!"))
    (fun _ => ret (envelope false "Something went wrong!")).

(** [deletePost] *)
Definition deletePost (authorization : option string) (where_id : option string) : M PostResp :=
  try_catch
    (userObj <- getUser authorization ;;
     if truthy_str (c_userId userObj) then
       o <- ObjectID where_id ;;
       r <- posts_deleteOne o ;;
       if (deletedCount r =? 1)%nat then ret (envelope true "Post delete successfully!")
       else ret (envelope false "Post does not exist!")
     else ret (envelope false "User not found!"))
    (fun error =>
       if indexOf_ge0 (e_message error) "jwt"
       then ret (envelope false "Invalid Auth token!")
       else ret (envelope false "Something went wrong!")).

(** [likePost]: [findOneAndUpdate] without options hands back the document
    as it was before the update; without [userId] the function falls off the
    end of its [if] and resolves to [undefined] ([None]). *)
Definition likePost (authorization : option string) (where_id : option string)
  : M (option PostResp) :=
  try_catch
    (userObj <- getUser authorization ;;
     if truthy_str (c_userId userObj) then
       o <- ObjectID where_id ;;
       v <- posts_findOneAndUpdate o Mutation.inc_likes true ;;
       match v with
       | Some p => ret (Some (post_success p "Post liked successfully!"))
       | None => ret (Some (envelope false "Post does not exist!"))
       end
     else ret None)
    (fun _ => ret (Some (envelope false "Something went wrong!"))).

(** [signUp] *)
Definition signUp (userName password : string) : M AuthResponse :=
  user <- users_findOne_name userName ;;
  match user with
  | None =>
      let hash := bcrypt_hash password saltRounds in
      newUser <- users_insertOne (fun id => mkUser id userName hash) ;;
      if (insertedCount newUser =? 1)%nat then
        w <- get_world ;;
        ret (mkAuthResponse
               (Some (JWT.sign hmac None (Some (insertedId newUser)) (jwt_secret w) None (now w)))
               true None)
      else ret (mkAuthResponse None false (Some "Something went wrong!"))
  | Some _ => ret (mkAuthResponse None false (Some "Username already exists!"))
  end.

(** [logIn]: the token has no expiry. *)
Definition logIn (userName password : string) : M AuthResponse :=
  user <- users_findOne_name userName ;;
  match user with
  | None => throw (null_read "password")
  | Some u =>
      if bcrypt_compare password (u_password u) then
        w <- get_world ;;
        ret (mkAuthResponse
               (Some (JWT.sign hmac None (Some (u_id u)) (jwt_secret w) None (now w)))
               true None)
      else ret (mkAuthResponse None false (Some "Invalid username or password!"))
  end.

(** [currentUser]: every failure inside the [try], the resolver's own
    [UserInputError] included, is replaced by [new Error('Invalid auth token!')]. *)
Definition currentUser (authorization : option string) : M UserResp :=
  try_catch
    (userObj <- getUser authorization ;;
     if truthy_str (c_userId userObj) then
       o <- ObjectID (c_userId userObj) ;;
       user <- users_findOne_id o ;;
       match user with
       | None => throw (mkErr UserInputError "Invalid user id!")
       | Some u => ret (mkUserResp (u_id u) (u_userName u))
       end
     else throw (mkErr UserInputError "Invalid user id!"))
    (fun _ => throw (mkErr PlainError "Invalid auth token!")).

End Legacy.

(** [posts(where: { skip, take })]: defaults 0 and 10, storage order. *)
Definition posts (skip take : option Z) : M (list PostResp) :=
  let skip' := match skip with Some n => if truthy_int skip then n else 0%Z | None => 0%Z end in
  let limit' := match take with Some n => if truthy_int take then n else 10%Z | None => 10%Z end in
  ps <- posts_find false skip' limit' ;;
  ret (map post_fields ps).

End Legacy.

(** ** GraphQL execution *)

Inductive GqlResult (A : Type) :=
| Data (a : A)
| Errors (e : Err).
Arguments Data {A} a.
Arguments Errors {A} e.

(** graphql-scalars' [ObjectID] scalar, [parseValue]. *)
Definition ObjectID_parseValue (s : string) : Outcome string :=
  if checkForHexRegExp s then Ok s
  else Exn (mkErr TypeError ("Value is not a valid mongodb object id of form: " ++ s)).

(** Completion of a field: a rejected resolver, or an [Error] object
    returned as its value, becomes a field error. *)
Definition complete_value {A} (o : Outcome A) : GqlResult A :=
  match o with
  | Ok a => Data a
  | Exn e => Errors e
  end.

Definition complete_return {A} (o : Outcome (JsReturn A)) : GqlResult A :=
  match o with
  | Ok (RetValue a) => Data a
  | Ok (RetError e) => Errors e
  | Exn e => Errors e
  end.

(** Executing a field whose argument is [where: { id: raw }]: the argument
    is coerced through the [ObjectID] scalar before the resolver runs. *)
Definition execute_where {A} (resolver : option string -> M A) (raw : string) (w : World)
  : GqlResult A * World :=
  match ObjectID_parseValue raw with
  | Exn e => (Errors e, w)
  | Ok id => let (o, w') := resolver (Some id) w in (complete_value o, w')
  end.

(** Envelope and error texts used in the statements. *)

Definition something_went_wrong : PostResp := envelope false "Something went wrong!".

Definition post_missing : PostResp := envelope false "Post does not exist!".

Definition bson_error_message : string :=
  "Argument passed in must be a single String of 12 bytes or a string of 24 hex characters".

(** All characters are lowercase hex digits. *)
Fixpoint lowhex (s : string) : bool :=
  match s with
  | EmptyString => true
  | String c r => is_hex_digit c && Ascii.eqb (lower_ascii c) c && lowhex r
  end.

(** ** Properties of worlds used in the statements *)

(** [createdAt] does not increase along the list. *)
Definition newer_first (a b : Post) : Prop := (p_createdAt b <= p_createdAt a)%Z.

(** A resolver keeps a property of the world when every run from a world
    with the property ends in a world with it, whatever it answers. *)
Definition keeps (P : World -> Prop) {A} (m : M A) : Prop :=
  forall w, P w -> P (snd (m w)).

(** Every stored post has a non-negative like count. *)
Definition likes_nonneg (w : World) : Prop := Forall (fun p => (0 <= p_likes p)%Z) (posts w).

(** The posts collection is [ps]. *)
Definition posts_are (ps : list Post) (w : World) : Prop := posts w = ps.

(** The users collection is [us]. *)
Definition users_are (us : list User) (w : World) : Prop := users w = us.

(** ** Sample data *)

Definition alice : User := mkUser (gen_oid 0) "alice" "hash:pw".
Definition post0 : Post :=
  mkPost (gen_oid 1) (Some "T") (Some "C") 1000 1000 (gen_oid 0) 5.
Definition world0 : World :=
  mkWorld [alice] [post0] 2 1700000000000 "s3cr3t" None 0.
Definition claims0 : Claims := mkClaims (Some (gen_oid 0)) None 1700000000 None.

Definition claims1 : Claims := mkClaims (Some (gen_oid 7)) None 1700000000 None.
Definition claims_ghost : Claims := mkClaims (Some (gen_oid 9)) None 1700000000 None.
Definition data0 : PostData := mkPostData (Given "T2") (Given "C2").

Definition world_fault (m : string) : World :=
  mkWorld [alice] [post0] 2 1700000000000 "s3cr3t" (Some m) 0.

(** Concrete black boxes for the examples. *)
Definition toy_hmac (secret input : string) : string := secret ++ "/" ++ input.
Definition toy_hash (pw : string) (_ : nat) : string := "hash:" ++ pw.
Definition toy_compare (pw h : string) : bool := String.eqb h ("hash:" ++ pw).

Definition signIn0 : Outcome AuthResponse * World :=
  Mutation.signIn toy_hmac toy_compare "alice" "pw" world0.
Definition auth0 : AuthResponse :=
  match fst signIn0 with Ok r => r | Exn _ => mkAuthResponse None false None end.
Definition token0 : string :=
  match a_token auth0 with Some t => t | None => EmptyString end.
Definition signUp0 : Outcome AuthResponse * World :=
  Mutation.signUp toy_hmac toy_hash "bob" "pw2" world0.
Definition auth1 : AuthResponse :=
  match fst signUp0 with Ok r => r | Exn _ => mkAuthResponse None false None end.
Definition token1 : string :=
  match a_token auth1 with Some t => t | None => EmptyString end.
Definition two_days_later : Z := 1700000000000 + 2 * 86400000.

(** A world at a much later time, with the same accounts, posts and secret. *)
Definition world_later : World :=
  mkWorld [alice] [post0] 2 4000000000000 "s3cr3t" None 0.

(** A token of [part_000] for alice, and its claims. *)
Definition legacy_claims0 : Claims := mkClaims None (Some (gen_oid 0)) 1700000000 None.
Definition legacy_token0 : string :=
  JWT.sign toy_hmac None (Some (gen_oid 0)) "s3cr3t" None 1700000000000.

(** The claims of [token0], the signIn token of [src/resolvers.js]. *)
Definition signIn_claims0 : Claims :=
  mkClaims (Some (gen_oid 0)) None 1700000000 (Some 1700086400%Z).

Definition logIn0 : Outcome AuthResponse * World :=
  Legacy.logIn toy_hmac toy_compare "alice" "pw" world0.
Definition legacy_auth0 : AuthResponse :=
  match fst logIn0 with Ok r => r | Exn _ => mkAuthResponse None false None end.
Definition legacy_logIn_token0 : string :=
  match a_token legacy_auth0 with Some t => t | None => EmptyString end.

(** A [part_000] token, correctly signed, for an id that has no account. *)
Definition legacy_ghost_token : string :=
  JWT.sign toy_hmac None (Some (gen_oid 9)) "s3cr3t" None 1700000000000.

(** The driver's text for a connection dropped during an operation, on a
    deployment whose database host name contains "jwt". *)
Definition jwt_host_failure : string := "connection 5 to jwt-db.example.net:27017 closed".

Example gen_oid_1 : gen_oid 1 = "000000000000000000000001".
Proof. reflexivity. Qed.

Example likePost_example :
  fst (Mutation.likePost (Some claims0) (Some (gen_oid 1)) world0)
  = Ok (post_success (Mutation.inc_likes post0) "Post liked successfully!").
Proof. vm_compute. reflexivity. Qed.

Example signIn_roundtrip_example :
  match fst (Mutation.signIn toy_hmac toy_compare "alice" "pw" world0) with
  | Ok r => match a_token r with
            | Some t => expressJwt toy_hmac "s3cr3t" (Some t) 1700000001000
                        = Authenticated (mkClaims (Some (gen_oid 0)) None 1700000000
                                           (Some 1700086400%Z))
            | None => False
            end
  | Exn _ => False
  end.
Proof. vm_compute. reflexivity. Qed.

(** ** Store lemmas *)

Lemma find_post_id (o : string) (ps : list Post) (p : Post) :
  find_post o ps = Some p -> p_id p = o.
Proof.
  unfold find_post. intros H. apply find_some in H as [_ H].
  now apply String.eqb_eq.
Qed.

Lemma update_first_spec (o : string) (g : Post -> Post) (ps : list Post) (p : Post) :
  (forall x, p_id (g x) = p_id x) ->
  find_post o ps = Some p ->
  exists ps', update_first o g ps = Some (p, ps')
    /\ length ps' = length ps
    /\ find_post o ps' = Some (g p)
    /\ (forall o', o' <> o -> find_post o' ps' = find_post o' ps).
Proof.
  intros Hg. induction ps as [|a r IH]; intros Hf; [discriminate|].
  unfold find_post in *; simpl in Hf |- *.
  destruct (String.eqb (p_id a) o) eqn:E.
  - injection Hf as <-. apply String.eqb_eq in E.
    exists (g a :: r). split; [reflexivity|]. split; [reflexivity|].
    simpl. rewrite Hg, E, String.eqb_refl. split; [reflexivity|].
    intros o' Hne.
    destruct (String.eqb_spec o o'); [congruence|reflexivity].
  - destruct (IH Hf) as (ps' & Hu & Hl & Ho & Hother).
    rewrite Hu. exists (a :: ps'). simpl. rewrite E.
    split; [reflexivity|]. split; [now rewrite Hl|]. split; [exact Ho|].
    intros o' Hne. now rewrite Hother.
Qed.

Lemma delete_first_found (o : string) (ps : list Post) (p : Post) :
  find_post o ps = Some p -> exists ps', delete_first o ps = Some ps'.
Proof.
  induction ps as [|a r IH]; intros Hf; [discriminate|].
  unfold find_post in *; simpl in Hf |- *.
  destruct (String.eqb (p_id a) o).
  - eauto.
  - destruct (IH Hf) as [ps' ->]. simpl. eauto.
Qed.

Lemma find_post_snoc (o : string) (ps : list Post) (q : Post) :
  find_post o ps = None -> p_id q = o -> find_post o (ps ++ [q]) = Some q.
Proof.
  intros Hn Hq. induction ps as [|a r IH]; unfold find_post in *; simpl in *.
  - now rewrite Hq, String.eqb_refl.
  - destruct (String.eqb (p_id a) o); [discriminate|]. now apply IH.
Qed.

Lemma find_user_name_snoc (n : string) (us : list User) (u : User) :
  find_user_name n us = None -> u_userName u = n -> find_user_name n (us ++ [u]) = Some u.
Proof.
  intros Hn Hu. induction us as [|a r IH]; unfold find_user_name in *; simpl in *.
  - now rewrite Hu, String.eqb_refl.
  - destruct (String.eqb (u_userName a) n); [discriminate|]. now apply IH.
Qed.

(** ** The post mutations and the identity (claim C9) *)

(** C9: updatePost, deletePost and likePost do not depend on which
    authenticated identity calls them: for two identities [u1] and [u2], the
    same arguments and the same world give the same response and the same
    world. In particular any authenticated identity, the post's author or
    not, updates and deletes an existing post. *)
Theorem mutations_ignore_identity (u1 u2 : Claims) (data : PostData) (s o : string)
    (p : Post) (w : World) :
  fault w = None -> objectid_of_string s = Ok o -> find_post o (posts w) = Some p ->
  (forall (i : option string) (w0 : World),
      Mutation.updatePost (Some u1) data i w0 = Mutation.updatePost (Some u2) data i w0
      /\ Mutation.deletePost (Some u1) i w0 = Mutation.deletePost (Some u2) i w0
      /\ Mutation.likePost (Some u1) i w0 = Mutation.likePost (Some u2) i w0)
  /\ fst (Mutation.deletePost (Some u1) (Some s) w) = Ok (envelope true "Post delete successfully!")
  /\ fst (Mutation.updatePost (Some u1) data (Some s) w)
     = Ok (post_success (Mutation.set_data data p) "Post updated successfully!").
Proof.
  intros Hf Ho Hp. split; [intros; repeat split; reflexivity|].
  split.
  - destruct (delete_first_found _ _ _ Hp) as [ps' Hd].
    unfold Mutation.deletePost, try_catch, bind, ObjectID, posts_deleteOne, store_call.
    rewrite Ho, Hf. simpl. rewrite Hd. reflexivity.
  - assert (Hid : forall x, p_id (Mutation.set_data data x) = p_id x) by reflexivity.
    destruct (update_first_spec o _ _ _ Hid Hp) as (ps' & Hu & _).
    unfold Mutation.updatePost, try_catch, bind, ObjectID, posts_findOneAndUpdate, store_call.
    rewrite Ho, Hf. simpl. rewrite Hu. reflexivity.
Qed.

(** ** currentUser of [src/resolvers.js] on a missing account *)

(** X22: when no identity is present, or the identity's account is not in
    the users collection, currentUser hands back the [UserInputError]
    "Invalid user id!" (returned from its catch block), and GraphQL raises it
    as a field error: the caller gets a query error, not an envelope. *)
Theorem currentUser_invalid_user (c : Claims) (uid o : string) (w : World) :
  c_id c = Some uid -> objectid_of_string uid = Ok o -> fault w = None ->
  find_user_id o (users w) = None ->
  fst (Query.currentUser None w) = Ok (RetError (mkErr UserInputError "Invalid user id!"))
  /\ complete_return (fst (Query.currentUser None w))
     = Errors (mkErr UserInputError "Invalid user id!")
  /\ fst (Query.currentUser (Some c) w) = Ok (RetError (mkErr UserInputError "Invalid user id!"))
  /\ complete_return (fst (Query.currentUser (Some c) w))
     = Errors (mkErr UserInputError "Invalid user id!").
Proof.
  intros Hc Ho Hf Hu.
  assert (H : fst (Query.currentUser (Some c) w)
              = Ok (RetError (mkErr UserInputError "Invalid user id!"))).
  { unfold Query.currentUser, try_catch, bind, ObjectID, users_findOne_id, store_call.
    rewrite Hc, Ho, Hf. simpl. rewrite Hu. reflexivity. }
  repeat split; try reflexivity; [exact H|]. now rewrite H.
Qed.

(** ** Store failures *)


(** X23: when the store rejects a call with the message [m],
    createPost, updatePost and likePost answer "Something went wrong!"
    whatever [m] says; deletePost alone answers "Invalid Auth token!" when
    [m] contains "jwt" and "Something went wrong!" otherwise. *)
Theorem store_failure_envelopes (c : Claims) (data : PostData) (s o m : string) (w : World) :
  objectid_of_string s = Ok o -> fault w = Some m ->
  fst (Mutation.createPost (Some c) data w) = Ok something_went_wrong
  /\ fst (Mutation.updatePost (Some c) data (Some s) w) = Ok something_went_wrong
  /\ fst (Mutation.likePost (Some c) (Some s) w) = Ok something_went_wrong
  /\ fst (Mutation.deletePost (Some c) (Some s) w)
     = Ok (if indexOf_ge0 m "jwt" then envelope false "Invalid Auth token!"
           else something_went_wrong).
Proof.
  intros Ho Hf. repeat split.
  - unfold Mutation.createPost, try_catch, bind, get_world, ObjectID, generate_oid,
      posts_insertOne, store_call.
    destruct (c_id c) as [x|]; [destruct (objectid_of_string x)|]; simpl;
      rewrite ?Hf; reflexivity.
  - unfold Mutation.updatePost, try_catch, bind, ObjectID, posts_findOneAndUpdate, store_call.
    rewrite Ho, Hf. reflexivity.
  - unfold Mutation.likePost, try_catch, bind, ObjectID, posts_findOneAndUpdate, store_call.
    rewrite Ho, Hf. reflexivity.
  - unfold Mutation.deletePost, try_catch, bind, ObjectID, posts_deleteOne, store_call.
    rewrite Ho, Hf. simpl. destruct (indexOf_ge0 m "jwt"); reflexivity.
Qed.

(** ** Malformed post ids (claim C5) *)


Lemma bson_error_not_jwt : indexOf_ge0 bson_error_message "jwt" = false.
Proof. vm_compute. reflexivity. Qed.

Lemma delete_first_none_find (o : string) (ps : list Post) :
  delete_first o ps = None -> find_post o ps = None.
Proof.
  induction ps as [|a r IH]; unfold find_post in *; simpl; intros H; [reflexivity|].
  destruct (String.eqb (p_id a) o); [discriminate|].
  apply IH. destruct (delete_first o r); [discriminate|reflexivity].
Qed.

Lemma update_first_none_find (o : string) (g : Post -> Post) (ps : list Post) :
  update_first o g ps = None -> find_post o ps = None.
Proof.
  induction ps as [|a r IH]; unfold find_post in *; simpl; intros H; [reflexivity|].
  destruct (String.eqb (p_id a) o); [discriminate|].
  apply IH. destruct (update_first o g r) as [[q r']|]; [discriminate|reflexivity].
Qed.

(** Which envelope a response is. *)
Ltac envelope_neq H :=
  cbn in H; cbv [envelope something_went_wrong post_missing post_success] in H; congruence.

Lemma updatePost_post_missing (c : Claims) (data : PostData) (s : string) (w : World) :
  fst (Mutation.updatePost (Some c) data (Some s) w) = Ok post_missing ->
  exists o, objectid_of_string s = Ok o /\ fault w = None /\ find_post o (posts w) = None.
Proof.
  unfold Mutation.updatePost, try_catch, bind, ObjectID, posts_findOneAndUpdate, store_call.
  intros H. destruct (objectid_of_string s) as [o|e]; [|cbn in H; envelope_neq H].
  exists o. split; [reflexivity|]. destruct (fault w) as [m|]; [cbn in H; envelope_neq H|].
  split; [reflexivity|].
  destruct (update_first o (Mutation.set_data data) (posts (bump_calls w))) as [[p ps]|] eqn:E.
  - cbn in H. envelope_neq H.
  - exact (update_first_none_find _ _ _ E).
Qed.

Lemma deletePost_post_missing (c : Claims) (s : string) (w : World) :
  fst (Mutation.deletePost (Some c) (Some s) w) = Ok post_missing ->
  exists o, objectid_of_string s = Ok o /\ fault w = None /\ find_post o (posts w) = None.
Proof.
  unfold Mutation.deletePost, try_catch, bind, ObjectID, posts_deleteOne, store_call.
  intros H. cbn -[indexOf_ge0 delete_first] in H.
  destruct (objectid_of_string s) as [o|e].
  2:{ cbn -[indexOf_ge0] in H. destruct (indexOf_ge0 (e_message e) "jwt"); envelope_neq H. }
  exists o. split; [reflexivity|]. cbn -[indexOf_ge0 delete_first] in H.
  destruct (fault w) as [m|].
  { cbn -[indexOf_ge0] in H. destruct (indexOf_ge0 m "jwt"); envelope_neq H. }
  split; [reflexivity|]. cbn -[delete_first] in H.
  destruct (delete_first o (posts w)) as [ps|] eqn:E.
  - cbn in H. envelope_neq H.
  - exact (delete_first_none_find _ _ E).
Qed.

Lemma likePost_post_missing (user : option Claims) (s : string) (w : World) :
  fst (Mutation.likePost user (Some s) w) = Ok post_missing ->
  exists o, objectid_of_string s = Ok o /\ fault w = None /\ find_post o (posts w) = None.
Proof.
  unfold Mutation.likePost, try_catch, bind, ObjectID, posts_findOneAndUpdate, store_call.
  intros H. destruct (objectid_of_string s) as [o|e]; [|cbn in H; envelope_neq H].
  exists o. split; [reflexivity|]. destruct (fault w) as [m|]; [cbn in H; envelope_neq H|].
  split; [reflexivity|].
  destruct (update_first o Mutation.inc_likes (posts (bump_calls w))) as [[p ps]|] eqn:E.
  - cbn in H. envelope_neq H.
  - exact (update_first_none_find _ _ _ E).
Qed.

(** C5 (as amended): a malformed post id (neither 24 hex digits nor a
    12-byte string) never yields "Post does not exist!". Through the API,
    the [ObjectID] argument type rejects it with a query error before the
    resolver runs, leaving the world unchanged (no store call); and the
    resolvers themselves, given such a string, catch the [ObjectID] failure
    and answer "Something went wrong!". "Post does not exist!" comes only
    from an id that [ObjectID()] accepts (a well-formed id), with the store
    up, when no post has that id. *)
Theorem malformed_id_outcomes (c : Claims) (data : PostData) (raw : string) (w : World) :
  checkForHexRegExp raw = false -> String.length raw <> 12%nat ->
  (exists e, execute_where (Mutation.updatePost (Some c) data) raw w = (Errors e, w))
  /\ (exists e, execute_where (Mutation.deletePost (Some c)) raw w = (Errors e, w))
  /\ (exists e, execute_where (Mutation.likePost (Some c)) raw w = (Errors e, w))
  /\ fst (Mutation.updatePost (Some c) data (Some raw) w) = Ok something_went_wrong
  /\ fst (Mutation.deletePost (Some c) (Some raw) w) = Ok something_went_wrong
  /\ fst (Mutation.likePost (Some c) (Some raw) w) = Ok something_went_wrong
  /\ (forall (s : string) (w0 : World),
        fst (Mutation.updatePost (Some c) data (Some s) w0) = Ok post_missing
        \/ fst (Mutation.deletePost (Some c) (Some s) w0) = Ok post_missing
        \/ fst (Mutation.likePost (Some c) (Some s) w0) = Ok post_missing ->
        exists o, objectid_of_string s = Ok o /\ fault w0 = None /\ find_post o (posts w0) = None).
Proof.
  intros Hre Hlen.
  assert (Honly : forall (s : string) (w0 : World),
        fst (Mutation.updatePost (Some c) data (Some s) w0) = Ok post_missing
        \/ fst (Mutation.deletePost (Some c) (Some s) w0) = Ok post_missing
        \/ fst (Mutation.likePost (Some c) (Some s) w0) = Ok post_missing ->
        exists o, objectid_of_string s = Ok o /\ fault w0 = None /\ find_post o (posts w0) = None).
  { intros s w0 [H|[H|H]];
      [exact (updatePost_post_missing c data s w0 H)
      |exact (deletePost_post_missing c s w0 H)
      |exact (likePost_post_missing (Some c) s w0 H)]. }
  assert (Hb : objectid_of_string raw = Exn (mkErr BSONError bson_error_message)).
  { unfold objectid_of_string. rewrite Hre.
    destruct (String.length raw =? 12)%nat eqn:E; [apply Nat.eqb_eq in E; contradiction|].
    reflexivity. }
  unfold execute_where, ObjectID_parseValue. rewrite Hre.
  repeat split; try (eexists; reflexivity).
  - unfold Mutation.updatePost, try_catch, bind, ObjectID. now rewrite Hb.
  - unfold Mutation.deletePost, try_catch, bind, ObjectID. rewrite Hb.
    cbn -[indexOf_ge0 bson_error_message]. now rewrite bson_error_not_jwt.
  - unfold Mutation.likePost, try_catch, bind, ObjectID. now rewrite Hb.
  - exact Honly.
Qed.

(** ** likePost of [src/resolvers.js] on an existing post *)

(** X21: on an existing post (and a working store) every likePost call
    raises that post's [likes] by exactly 1, leaves the other posts as they
    were, and answers the updated post (likes = old value + 1) with
    success true and "Post liked successfully!". *)
Theorem likePost_increments_likes (user : option Claims) (s o : string) (p : Post)
    (w : World) :
  fault w = None -> objectid_of_string s = Ok o -> find_post o (posts w) = Some p ->
  exists r w', Mutation.likePost user (Some s) w = (Ok r, w')
    /\ r_likes r = Some (p_likes p + 1)%Z
    /\ r_id r = Some o
    /\ r_title r = p_title p /\ r_content r = p_content p
    /\ r_author r = Some (p_author p)
    /\ r_success r = Some true
    /\ r_message r = Some "Post liked successfully!"
    /\ find_post o (posts w') = Some (Mutation.inc_likes p)
    /\ (forall o', o' <> o -> find_post o' (posts w') = find_post o' (posts w))
    /\ length (posts w') = length (posts w).
Proof.
  intros Hf Ho Hp.
  assert (Hid : forall x, p_id (Mutation.inc_likes x) = p_id x) by reflexivity.
  destruct (update_first_spec o _ _ _ Hid Hp) as (ps' & Hu & Hl & Hfo & Hother).
  pose proof (find_post_id _ _ _ Hp) as Hpid.
  eexists _, _. unfold Mutation.likePost, try_catch, bind, ObjectID,
    posts_findOneAndUpdate, store_call.
  rewrite Ho, Hf. simpl. rewrite Hu. simpl.
  split; [reflexivity|]. simpl. rewrite Hpid.
  repeat split; try reflexivity; assumption.
Qed.

(** ** Generated ids *)


Lemma lowhex_all_hex (s : string) : lowhex s = true -> all_hex s = true.
Proof.
  induction s as [|c r IH]; simpl; [reflexivity|].
  intros H. apply andb_prop in H as [H1 H2]. apply andb_prop in H1 as [H1 _].
  now rewrite H1, IH.
Qed.

Lemma lowhex_lower (s : string) : lowhex s = true -> lower_string s = s.
Proof.
  induction s as [|c r IH]; simpl; [reflexivity|].
  intros H. apply andb_prop in H as [H1 H2]. apply andb_prop in H1 as [_ H1].
  apply Ascii.eqb_eq in H1. now rewrite H1, IH.
Qed.

Lemma hex_digit_lowhex (d : nat) :
  d < 16 -> is_hex_digit (hex_digit d) && Ascii.eqb (lower_ascii (hex_digit d)) (hex_digit d) = true.
Proof.
  intros Hd. do 16 (destruct d as [|d]; [reflexivity|]). lia.
Qed.

Lemma hex_fixed_spec (k n : nat) (acc : string) :
  lowhex acc = true ->
  lowhex (hex_fixed k n acc) = true /\ String.length (hex_fixed k n acc) = k + String.length acc.
Proof.
  revert n acc. induction k as [|k IH]; intros n acc Ha; cbn [hex_fixed]; [auto|].
  destruct (IH (n / 16) (String (hex_digit (n mod 16)) acc)) as [H1 H2].
  - cbn [lowhex]. rewrite hex_digit_lowhex, Ha; [reflexivity|].
    apply Nat.mod_upper_bound. lia.
  - split; [exact H1|]. rewrite H2. cbn [String.length]. lia.
Qed.

Lemma gen_oid_valid (n : nat) : objectid_of_string (gen_oid n) = Ok (gen_oid n).
Proof.
  destruct (hex_fixed_spec 24 n EmptyString eq_refl) as [H1 H2].
  unfold objectid_of_string, checkForHexRegExp, gen_oid.
  rewrite H2, (lowhex_all_hex _ H1), (lowhex_lower _ H1). reflexivity.
Qed.

(** ** createPost followed by post (claim C3) *)

(** C3: with an authenticated identity whose id is a (lowercase) ObjectID
    [uid], createPost answers a post with likes 0, author [uid] and success
    true; querying post with the returned id right after gives back the
    title and content that were sent ([null] for a field sent as [null] or
    left out). (The store is up and the driver's next
    generated id is not taken.) *)
Theorem createPost_then_post (c : Claims) (uid : string) (data : PostData) (w : World) :
  c_id c = Some uid -> objectid_of_string uid = Ok uid -> fault w = None ->
  find_post (gen_oid (oid_counter w)) (posts w) = None ->
  exists r w', Mutation.createPost (Some c) data w = (Ok r, w')
    /\ r_likes r = Some 0%Z
    /\ r_author r = Some uid
    /\ r_success r = Some true
    /\ r_message r = Some "Post created successfully!"
    /\ exists i pr w'', r_id r = Some i
         /\ Query.post (Some i) w' = (Ok pr, w'')
         /\ r_title pr = field_value (d_title data)
         /\ r_content pr = field_value (d_content data).
Proof.
  intros Hc Hu Hf Hfresh.
  assert (Hq : find_post (gen_oid (oid_counter w)) (posts w ++
                 [mkPost (gen_oid (oid_counter w)) (field_value (d_title data)) (field_value (d_content data))
                    (now w) (now w) uid 0])
               = Some (mkPost (gen_oid (oid_counter w)) (field_value (d_title data)) (field_value (d_content data))
                         (now w) (now w) uid 0))
    by (apply find_post_snoc; [exact Hfresh | reflexivity]).
  eexists _, _. unfold Mutation.createPost, try_catch, bind, get_world, ObjectID,
    posts_insertOne, posts_findOne, store_call.
  rewrite Hc, Hu, Hf. cbn -[gen_oid find_post]. rewrite Hfresh.
  cbn -[gen_oid find_post]. rewrite Hf. cbn -[gen_oid find_post]. rewrite Hq.
  split; [reflexivity|]. repeat split.
  eexists _, _, _. split; [reflexivity|].
  unfold Query.post, bind, ObjectID, posts_findOne, store_call.
  cbn [p_id]. rewrite gen_oid_valid. cbn -[gen_oid find_post]. rewrite Hf.
  cbn -[gen_oid find_post]. rewrite Hq. split; [reflexivity|]. split; reflexivity.
Qed.

(** ** Token round trip *)

Lemma str_app_assoc (a b c : string) : (a ++ b) ++ c = a ++ (b ++ c).
Proof. induction a as [|x a IH]; simpl; congruence. Qed.

Lemma dec_str_enc (s rest : string) : JWT.dec_str (JWT.enc_str s ++ rest) = Some (s, rest).
Proof. induction s as [|c r IH]; simpl; [reflexivity|]. now rewrite IH. Qed.

Lemma dec_pos_enc (p : positive) (rest : string) :
  JWT.dec_pos (JWT.enc_pos p ++ rest) = Some (p, rest).
Proof. induction p as [q IH|q IH|]; simpl; try rewrite IH; reflexivity. Qed.

Lemma dec_Z_enc (z : Z) (rest : string) : JWT.dec_Z (JWT.enc_Z z ++ rest) = Some (z, rest).
Proof. destruct z; simpl; try rewrite dec_pos_enc; reflexivity. Qed.

Lemma dec_opt_enc {A} (enc : A -> string) (dec : string -> option (A * string))
    (o : option A) (rest : string) :
  (forall a r, dec (enc a ++ r) = Some (a, r)) ->
  JWT.dec_opt dec (JWT.enc_opt enc o ++ rest) = Some (o, rest).
Proof. intros H. destruct o; simpl; try rewrite H; reflexivity. Qed.

Lemma dec_claims_enc (c : Claims) (rest : string) :
  JWT.dec_claims (JWT.enc_claims c ++ rest) = Some (c, rest).
Proof.
  unfold JWT.enc_claims, JWT.dec_claims. rewrite !str_app_assoc.
  rewrite (dec_opt_enc _ _ _ _ dec_str_enc), (dec_opt_enc _ _ _ _ dec_str_enc),
    dec_Z_enc, (dec_opt_enc _ _ _ _ dec_Z_enc).
  now destruct c.
Qed.

Lemma strip_prefix_app (p s : string) : JWT.strip_prefix p (p ++ s) = Some s.
Proof. induction p as [|a p IH]; simpl; [reflexivity|]. now rewrite Ascii.eqb_refl. Qed.

(** Verifying a freshly signed token with the same secret gives back its
    claims, unless the token has expired. *)
Lemma verify_sign (hmac : string -> string -> string) (id userId : option string)
    (secret : string) (expiresIn : option Z) (now_ms later : Z) :
  JWT.verify hmac (JWT.sign hmac id userId secret expiresIn now_ms) secret later
  = let c := mkClaims id userId (now_ms / 1000) (option_map (Z.add (now_ms / 1000)) expiresIn) in
    match c_exp c with
    | Some e => if (later / 1000 >=? e)%Z then Exn (mkErr TokenExpiredError "jwt expired") else Ok c
    | None => Ok c
    end.
Proof.
  unfold JWT.sign, JWT.verify. cbv zeta.
  set (c := mkClaims id userId (now_ms / 1000) (option_map (Z.add (now_ms / 1000)) expiresIn)).
  set (sg := hmac secret (JWT.signing_input c)).
  replace (JWT.signing_input c ++ "." ++ sg)
    with ((JWT.header_HS256 ++ ".") ++ (JWT.enc_claims c ++ String "."%char sg))
    by (unfold JWT.signing_input; rewrite !str_app_assoc; reflexivity).
  rewrite strip_prefix_app, dec_claims_enc.
  cbn [Ascii.eqb andb]. rewrite ?Ascii.eqb_refl, String.eqb_refl. reflexivity.
Qed.

Lemma seconds_after_a_day (t later : Z) :
  (t + 86400000 < later)%Z -> (t / 1000 + 86400 <= later / 1000)%Z.
Proof.
  intros H.
  replace (t / 1000 + 86400)%Z with ((t + 86400 * 1000) / 1000)%Z
    by (rewrite Z.div_add; lia).
  apply Z.div_le_mono; lia.
Qed.

(** The token of a signIn that succeeded: the account found by name,
    signed with [expiresIn] one day. *)
Lemma signIn_token_shape (hmac : string -> string -> string)
    (bcrypt_compare : string -> string -> bool) (userName password : string)
    (w w' : World) (r : AuthResponse) (t : string) :
  Mutation.signIn hmac bcrypt_compare userName password w = (Ok r, w') ->
  a_token r = Some t ->
  exists u, find_user_name userName (users w) = Some u
    /\ t = JWT.sign hmac (Some (u_id u)) None (jwt_secret w) (Some 86400%Z) (now w).
Proof.
  unfold Mutation.signIn, bind, users_findOne_name, store_call, get_world, ret, throw.
  intros H Ht. destruct (fault w); [discriminate|].
  cbn -[find_user_name JWT.sign] in H.
  destruct (find_user_name userName (users w)) as [u|] eqn:Ef;
    cbn -[JWT.sign] in H; [|discriminate].
  destruct (bcrypt_compare password (u_password u)); cbn -[JWT.sign] in H; injection H as <- _;
    cbn -[JWT.sign] in Ht; [|discriminate].
  exists u. split; [reflexivity|]. congruence.
Qed.

(** C7 (as amended): a token issued by signIn for an account, fed back to
    the identity middleware (express-jwt, same secret) before its expiry
    (one day after the issue time in whole seconds), resolves to claims
    whose [id] is that account's identifier. *)
Theorem signIn_token_roundtrip (hmac : string -> string -> string)
    (bcrypt_compare : string -> string -> bool) (userName password : string)
    (w w' : World) (r : AuthResponse) (t : string) (u : User) (later : Z) :
  Mutation.signIn hmac bcrypt_compare userName password w = (Ok r, w') ->
  a_token r = Some t ->
  find_user_name userName (users w) = Some u ->
  (later / 1000 < now w / 1000 + 86400)%Z ->
  exists c, expressJwt hmac (jwt_secret w) (Some t) later = Authenticated c
    /\ c_id c = Some (u_id u).
Proof.
  intros H Ht Hu Hl.
  destruct (signIn_token_shape _ _ _ _ _ _ _ _ H Ht) as (u' & Hu' & ->).
  rewrite Hu in Hu'. injection Hu' as <-.
  unfold expressJwt. rewrite verify_sign. cbn zeta. cbn [c_exp option_map].
  destruct (Z.geb_spec (later / 1000) (now w / 1000 + 86400)); [lia|].
  eexists. split; reflexivity.
Qed.

(** C10 (as amended): a token issued by signUp carries no expiry and
    resolves, at every later time, to the identifier of the account just
    created; a token issued by signIn carries a one-day expiry, and at every
    time more than one day after issuance the identity middleware rejects it
    with "jwt expired" (an [UnauthorizedError] that ends the request),
    rather than leaving the request without identity. *)
Theorem token_lifetimes (hmac : string -> string -> string)
    (bcrypt_hash : string -> nat -> string) (bcrypt_compare : string -> string -> bool)
    (n1 p1 n2 p2 : string) (wa wa' wb wb' : World) (r1 r2 : AuthResponse) (t1 t2 : string) :
  Mutation.signUp hmac bcrypt_hash n1 p1 wa = (Ok r1, wa') -> a_token r1 = Some t1 ->
  Mutation.signIn hmac bcrypt_compare n2 p2 wb = (Ok r2, wb') -> a_token r2 = Some t2 ->
  (forall later : Z, exists c u,
      expressJwt hmac (jwt_secret wa) (Some t1) later = Authenticated c
      /\ find_user_name n1 (users wa') = Some u /\ c_id c = Some (u_id u))
  /\ (forall later : Z, (now wb + 86400000 < later)%Z ->
      expressJwt hmac (jwt_secret wb) (Some t2) later
      = Unauthorized (mkErr TokenExpiredError "jwt expired")).
Proof.
  intros H1 Ht1 H2 Ht2. split.
  - unfold Mutation.signUp, bind, users_findOne_name, users_insertOne, store_call,
      get_world, ret in H1.
    destruct (fault wa) eqn:Hf; [discriminate|].
    cbn -[gen_oid find_user_name find_user_id JWT.sign] in H1.
    destruct (find_user_name n1 (users wa)) as [x|] eqn:Ef;
      cbn -[gen_oid find_user_name find_user_id JWT.sign] in H1;
      [injection H1 as <- _; discriminate|].
    rewrite Hf in H1. cbn -[gen_oid find_user_name find_user_id JWT.sign] in H1.
    destruct (find_user_id (gen_oid (oid_counter wa)) (users wa));
      cbn -[gen_oid find_user_name find_user_id JWT.sign] in H1; [discriminate|].
    cbn -[gen_oid find_user_name find_user_id JWT.sign] in H1.
    injection H1 as <- <-. cbn [a_token] in Ht1. injection Ht1 as <-.
    intros later. unfold expressJwt. rewrite verify_sign. cbn zeta.
    eexists _, _. split; [reflexivity|]. split.
    + cbn [users set_users bump_counter bump_calls].
      apply find_user_name_snoc; [exact Ef|reflexivity].
    + reflexivity.
  - intros later Hl.
    destruct (signIn_token_shape _ _ _ _ _ _ _ _ H2 Ht2) as (u & _ & ->).
    unfold expressJwt. rewrite verify_sign. cbn zeta. cbn [c_exp option_map].
    apply seconds_after_a_day in Hl.
    destruct (Z.geb_spec (later / 1000) (now wb / 1000 + 86400)); [reflexivity|lia].
Qed.

(** ** Mutations without identity (claim C1) *)

(** createPost, updatePost and deletePost answer "User not found!" without
    touching the store when there is no identity. *)
Lemma gated_mutations_no_identity (data : PostData) (i : option string) (w : World) :
  Mutation.createPost None data w = (Ok (envelope false "User not found!"), w)
  /\ Mutation.updatePost None data i w = (Ok (envelope false "User not found!"), w)
  /\ Mutation.deletePost None i w = (Ok (envelope false "User not found!"), w)
  /\ Mutation.likePost_index None i w = (Ok (envelope false "User not found!"), w).
Proof. repeat split; reflexivity. Qed.

(** C1 (code_bug): likePost of [src/resolvers.js] has no identity check.
    Without identity it still issues the store call and likes the post,
    where the same resolver in [src/index.js] answers "User not found!"
    with no store call. *)
Lemma likePost_without_identity :
  Mutation.likePost None (Some (gen_oid 1)) world0
  = (Ok (post_success (Mutation.inc_likes post0) "Post liked successfully!"),
     set_posts [Mutation.inc_likes post0] (bump_calls world0))
  /\ store_calls (snd (Mutation.likePost None (Some (gen_oid 1)) world0)) = 1%nat
  /\ Mutation.likePost_index None (Some (gen_oid 1)) world0
     = (Ok (envelope false "User not found!"), world0).
Proof. vm_compute. repeat split; reflexivity. Qed.

(** ** signIn with an unknown user name (claim C4) *)

(** C4 (code_bug): signIn does not check the result of the user lookup: for
    a user name with no account it reads [password] of [null] and rejects
    with a TypeError instead of answering "Invalid username or password!". *)
Lemma signIn_unknown_user_throws (hmac : string -> string -> string)
    (bcrypt_compare : string -> string -> bool) :
  Mutation.signIn hmac bcrypt_compare "nobody" "pw" world0
  = (Exn (null_read "password"), bump_calls world0).
Proof. reflexivity. Qed.

(** ** Counterexamples *)

(** C5: a malformed id does not give "Post does not exist!". *)
Lemma malformed_id_not_post_missing :
  fst (execute_where (Mutation.deletePost (Some claims0)) "not-an-id" world0)
  <> Data (envelope false "Post does not exist!").
Proof. vm_compute. discriminate. Qed.

(** C6 (code_bug): only deletePost maps a failure whose message contains
    "jwt" to "Invalid Auth token!". On the same store failure (a dropped
    connection to a database host whose name contains "jwt"), deletePost
    answers "Invalid Auth token!" while createPost, updatePost and likePost
    answer "Something went wrong!". *)
Lemma store_failure_jwt_marker_divergence :
  indexOf_ge0 jwt_host_failure "jwt" = true
  /\ fst (Mutation.deletePost (Some claims0) (Some (gen_oid 1)) (world_fault jwt_host_failure))
     = Ok (envelope false "Invalid Auth token!")
  /\ fst (Mutation.createPost (Some claims0) data0 (world_fault jwt_host_failure))
     = Ok something_went_wrong
  /\ fst (Mutation.updatePost (Some claims0) data0 (Some (gen_oid 1)) (world_fault jwt_host_failure))
     = Ok something_went_wrong
  /\ fst (Mutation.likePost (Some claims0) (Some (gen_oid 1)) (world_fault jwt_host_failure))
     = Ok something_went_wrong.
Proof. vm_compute. repeat split; reflexivity. Qed.

(** C2 (code_bug): likePost of [part_000] calls [findOneAndUpdate] without
    [returnOriginal: false], so on an existing post it answers the post as
    it was before the like (likes 5) while the store now holds 6 likes; the
    likePost of [src/resolvers.js] answers the updated post (likes 6). *)
Lemma legacy_likePost_stale_likes :
  Legacy.likePost toy_hmac (Some legacy_token0) (Some (gen_oid 1)) world0
  = (Ok (Some (post_success post0 "Post liked successfully!")),
     set_posts [Mutation.inc_likes post0] (bump_calls world0))
  /\ p_likes post0 = 5%Z
  /\ p_likes (Mutation.inc_likes post0) = 6%Z
  /\ fst (Mutation.likePost (Some claims0) (Some (gen_oid 1)) world0)
     = Ok (post_success (Mutation.inc_likes post0) "Post liked successfully!").
Proof. vm_compute. repeat split; reflexivity. Qed.

(** C8 (code_bug): currentUser of [part_000] catches every failure, its own
    [UserInputError] "Invalid user id!" included, and throws
    [Error('Invalid auth token!')] instead. With no Authorization header, and
    with a valid token for an id that has no account, the caller gets
    "Invalid auth token!", never "Invalid user id!"; the currentUser of
    [src/resolvers.js] reports "Invalid user id!" in both cases. *)
Lemma legacy_currentUser_masks_invalid_user :
  complete_value (fst (Legacy.currentUser toy_hmac None world0))
  = Errors (mkErr PlainError "Invalid auth token!")
  /\ Legacy.getUser toy_hmac (Some legacy_ghost_token) world0
     = (Ok (mkClaims None (Some (gen_oid 9)) 1700000000 None), world0)
  /\ find_user_id (gen_oid 9) (users world0) = None
  /\ complete_value (fst (Legacy.currentUser toy_hmac (Some legacy_ghost_token) world0))
     = Errors (mkErr PlainError "Invalid auth token!")
  /\ complete_return (fst (Query.currentUser None world0))
     = Errors (mkErr UserInputError "Invalid user id!")
  /\ complete_return (fst (Query.currentUser (Some claims_ghost) world0))
     = Errors (mkErr UserInputError "Invalid user id!").
Proof. vm_compute. repeat split; reflexivity. Qed.

(** C7: two days after signIn, its token no longer resolves to the account. *)
Lemma signIn_token_not_resolved_later :
  a_token auth0 = Some token0
  /\ ~ (exists c, expressJwt toy_hmac (jwt_secret world0) (Some token0) two_days_later
                  = Authenticated c /\ c_id c = Some (u_id alice)).
Proof.
  split; [vm_compute; reflexivity|].
  intros [c [H _]]. vm_compute in H. discriminate.
Qed.

(** C10: two days after signIn, its token is rejected by the middleware; it
    does not resolve to the no-identity case. *)
Lemma signIn_token_expired_rejected :
  expressJwt toy_hmac (jwt_secret world0) (Some token0) two_days_later
  = Unauthorized (mkErr TokenExpiredError "jwt expired")
  /\ expressJwt toy_hmac (jwt_secret world0) (Some token0) two_days_later <> Anonymous.
Proof. vm_compute. split; [reflexivity|discriminate]. Qed.

(** ** Witnesses: the hypotheses of the claim theorems hold on sample inputs *)

Lemma likePost_increments_likes_witness :
  fault world0 = None /\ objectid_of_string (gen_oid 1) = Ok (gen_oid 1)
  /\ find_post (gen_oid 1) (posts world0) = Some post0
  /\ exists r w', Mutation.likePost None (Some (gen_oid 1)) world0 = (Ok r, w')
       /\ r_likes r = Some 6%Z.
Proof.
  split; [reflexivity|]. split; [vm_compute; reflexivity|]. split; [reflexivity|].
  pose proof (likePost_increments_likes None (gen_oid 1) (gen_oid 1) post0 world0
    ltac:(reflexivity) ltac:(vm_compute; reflexivity) ltac:(reflexivity)) as H.
  destruct H as (r & w' & H1 & H2 & _). exists r, w'. split; [exact H1|exact H2].
Defined.

Lemma createPost_then_post_witness :
  c_id claims0 = Some (gen_oid 0) /\ objectid_of_string (gen_oid 0) = Ok (gen_oid 0)
  /\ fault world0 = None /\ find_post (gen_oid (oid_counter world0)) (posts world0) = None
  /\ exists r w', Mutation.createPost (Some claims0) data0 world0 = (Ok r, w')
       /\ r_likes r = Some 0%Z /\ r_author r = Some (gen_oid 0).
Proof.
  split; [reflexivity|]. split; [vm_compute; reflexivity|].
  split; [reflexivity|]. split; [vm_compute; reflexivity|].
  pose proof (createPost_then_post claims0 (gen_oid 0) data0 world0
    ltac:(reflexivity) ltac:(vm_compute; reflexivity) ltac:(reflexivity)
    ltac:(vm_compute; reflexivity)) as H.
  destruct H as (r & w' & H1 & H2 & H3 & _). exists r, w'. auto.
Defined.

Lemma malformed_id_outcomes_witness :
  checkForHexRegExp "not-an-id" = false /\ String.length "not-an-id" <> 12%nat
  /\ fst (Mutation.deletePost (Some claims0) (Some "not-an-id") world0)
     = Ok something_went_wrong.
Proof.
  split; [reflexivity|]. split; [simpl; lia|].
  pose proof (malformed_id_outcomes claims0 data0 "not-an-id" world0
    ltac:(reflexivity) ltac:(simpl; lia)) as H.
  destruct H as (_ & _ & _ & _ & H & _). exact H.
Defined.

Lemma store_failure_envelopes_witness :
  objectid_of_string (gen_oid 1) = Ok (gen_oid 1)
  /\ fault (world_fault "connection refused") = Some "connection refused"
  /\ fst (Mutation.createPost (Some claims0) data0 (world_fault "connection refused"))
     = Ok something_went_wrong.
Proof.
  split; [vm_compute; reflexivity|]. split; [reflexivity|].
  pose proof (store_failure_envelopes claims0 data0 (gen_oid 1) (gen_oid 1)
    "connection refused" (world_fault "connection refused")
    ltac:(vm_compute; reflexivity) ltac:(reflexivity)) as H.
  destruct H as (H & _). exact H.
Defined.

Lemma signIn_token_roundtrip_witness :
  Mutation.signIn toy_hmac toy_compare "alice" "pw" world0 = (Ok auth0, snd signIn0)
  /\ a_token auth0 = Some token0
  /\ find_user_name "alice" (users world0) = Some alice
  /\ (1700000001000 / 1000 < now world0 / 1000 + 86400)%Z
  /\ exists c, expressJwt toy_hmac (jwt_secret world0) (Some token0) 1700000001000
               = Authenticated c /\ c_id c = Some (u_id alice).
Proof.
  split; [vm_compute; reflexivity|]. split; [vm_compute; reflexivity|].
  split; [reflexivity|]. split; [vm_compute; reflexivity|].
  exact (signIn_token_roundtrip toy_hmac toy_compare "alice" "pw" world0 (snd signIn0)
    auth0 token0 alice 1700000001000 ltac:(vm_compute; reflexivity)
    ltac:(vm_compute; reflexivity) ltac:(reflexivity) ltac:(vm_compute; reflexivity)).
Defined.

Lemma currentUser_invalid_user_witness :
  c_id claims_ghost = Some (gen_oid 9) /\ objectid_of_string (gen_oid 9) = Ok (gen_oid 9)
  /\ fault world0 = None /\ find_user_id (gen_oid 9) (users world0) = None
  /\ complete_return (fst (Query.currentUser (Some claims_ghost) world0))
     = Errors (mkErr UserInputError "Invalid user id!").
Proof.
  split; [reflexivity|]. split; [vm_compute; reflexivity|].
  split; [reflexivity|]. split; [vm_compute; reflexivity|].
  pose proof (currentUser_invalid_user claims_ghost (gen_oid 9) (gen_oid 9) world0
    ltac:(reflexivity) ltac:(vm_compute; reflexivity) ltac:(reflexivity)
    ltac:(vm_compute; reflexivity)) as H.
  destruct H as (_ & _ & _ & H). exact H.
Defined.

Lemma mutations_ignore_identity_witness :
  fault world0 = None /\ objectid_of_string (gen_oid 1) = Ok (gen_oid 1)
  /\ find_post (gen_oid 1) (posts world0) = Some post0
  /\ p_author post0 <> gen_oid 7
  /\ fst (Mutation.deletePost (Some claims1) (Some (gen_oid 1)) world0)
     = Ok (envelope true "Post delete successfully!").
Proof.
  split; [reflexivity|]. split; [vm_compute; reflexivity|]. split; [reflexivity|].
  split; [vm_compute; discriminate|].
  pose proof (mutations_ignore_identity claims1 claims0 data0 (gen_oid 1) (gen_oid 1)
    post0 world0 ltac:(reflexivity) ltac:(vm_compute; reflexivity) ltac:(reflexivity)) as H.
  destruct H as (_ & H & _). exact H.
Defined.

Lemma token_lifetimes_witness :
  Mutation.signUp toy_hmac toy_hash "bob" "pw2" world0 = (Ok auth1, snd signUp0)
  /\ a_token auth1 = Some token1
  /\ Mutation.signIn toy_hmac toy_compare "alice" "pw" world0 = (Ok auth0, snd signIn0)
  /\ a_token auth0 = Some token0
  /\ expressJwt toy_hmac (jwt_secret world0) (Some token0) two_days_later
     = Unauthorized (mkErr TokenExpiredError "jwt expired").
Proof.
  split; [vm_compute; reflexivity|]. split; [vm_compute; reflexivity|].
  split; [vm_compute; reflexivity|]. split; [vm_compute; reflexivity|].
  pose proof (token_lifetimes toy_hmac toy_hash toy_compare "bob" "pw2" "alice" "pw"
    world0 (snd signUp0) world0 (snd signIn0) auth1 auth0 token1 token0
    ltac:(vm_compute; reflexivity) ltac:(vm_compute; reflexivity)
    ltac:(vm_compute; reflexivity) ltac:(vm_compute; reflexivity)) as H.
  destruct H as (_ & H). apply H. vm_compute. reflexivity.
Defined.

(** * Further properties of the resolvers *)

(** ** Store lemmas for missing and unique ids *)

Lemma delete_first_none (o : string) (ps : list Post) :
  find_post o ps = None -> delete_first o ps = None.
Proof.
  induction ps as [|a r IH]; unfold find_post in *; simpl; intros H; [reflexivity|].
  destruct (String.eqb (p_id a) o); [discriminate|]. now rewrite IH.
Qed.

Lemma update_first_none (o : string) (g : Post -> Post) (ps : list Post) :
  find_post o ps = None -> update_first o g ps = None.
Proof.
  induction ps as [|a r IH]; unfold find_post in *; simpl; intros H; [reflexivity|].
  destruct (String.eqb (p_id a) o); [discriminate|]. now rewrite IH.
Qed.

Lemma find_post_none_not_in (o : string) (ps : list Post) :
  ~ In o (map p_id ps) -> find_post o ps = None.
Proof.
  induction ps as [|a r IH]; unfold find_post in *; simpl; intros H; [reflexivity|].
  destruct (String.eqb_spec (p_id a) o); [tauto|]. apply IH. tauto.
Qed.

Lemma delete_first_spec (o : string) (ps : list Post) (p : Post) :
  find_post o ps = Some p -> NoDup (map p_id ps) ->
  exists ps', delete_first o ps = Some ps'
    /\ find_post o ps' = None
    /\ length ps' = pred (length ps)
    /\ (forall o', o' <> o -> find_post o' ps' = find_post o' ps).
Proof.
  induction ps as [|a r IH]; intros Hf Hnd; [discriminate|].
  simpl in Hnd. inversion Hnd as [|x l Hnin Hnd' [Hx Hl]]; subst.
  unfold find_post in *; simpl in Hf |- *.
  destruct (String.eqb_spec (p_id a) o) as [E|E].
  - exists r. split; [reflexivity|]. split.
    + apply find_post_none_not_in. now rewrite <- E.
    + split; [reflexivity|]. intros o' Hne.
      destruct (String.eqb_spec (p_id a) o'); [congruence|reflexivity].
  - destruct (IH Hf Hnd') as (ps' & Hd & Hn & Hl & Ho).
    rewrite Hd. exists (a :: ps'). simpl. split; [reflexivity|].
    destruct (String.eqb_spec (p_id a) o); [contradiction|]. split; [exact Hn|].
    split.
    + rewrite Hl. destruct r; [discriminate|reflexivity].
    + intros o' Hne. now rewrite Ho.
Qed.

(** ** signUp and signIn *)

(** X1: signUp with a user name that is already taken answers
    "Username already exists!" with no token, after one store call and
    without adding an account. *)
Theorem signUp_existing_name (hmac : string -> string -> string)
    (bcrypt_hash : string -> nat -> string) (userName password : string) (w : World) (u : User) :
  fault w = None -> find_user_name userName (users w) = Some u ->
  Mutation.signUp hmac bcrypt_hash userName password w
  = (Ok (mkAuthResponse None false (Some "Username already exists!")), bump_calls w).
Proof.
  intros Hf Hu. unfold Mutation.signUp, bind, users_findOne_name, store_call.
  cbn -[find_user_name]. rewrite Hf. cbn -[find_user_name]. rewrite Hu. reflexivity.
Qed.

(** X2: for an existing account, signIn with a password that bcrypt accepts
    answers success with a non-empty token; with a password it refuses, it
    answers "Invalid username or password!" and no token. *)
Theorem signIn_password_cases (hmac : string -> string -> string)
    (bcrypt_compare : string -> string -> bool) (userName password : string)
    (w : World) (u : User) :
  fault w = None -> find_user_name userName (users w) = Some u ->
  (bcrypt_compare password (u_password u) = true ->
   exists t, fst (Mutation.signIn hmac bcrypt_compare userName password w)
             = Ok (mkAuthResponse (Some t) true (Some "User signed in successfully!"))
          /\ t <> EmptyString)
  /\ (bcrypt_compare password (u_password u) = false ->
      fst (Mutation.signIn hmac bcrypt_compare userName password w)
      = Ok (mkAuthResponse None false (Some "Invalid username or password!"))).
Proof.
  intros Hf Hu.
  unfold Mutation.signIn, bind, users_findOne_name, store_call, get_world, ret.
  cbn -[find_user_name JWT.sign]. rewrite Hf. cbn -[find_user_name JWT.sign]. rewrite Hu.
  split; intros Hc; rewrite Hc.
  - eexists. split; [reflexivity|]. unfold JWT.sign, JWT.signing_input. discriminate.
  - reflexivity.
Qed.

(** X3: signing up a new user name and then signing in with the same
    password (for a hash that bcrypt's compare accepts) succeeds, and the
    signIn token resolves, through the middleware, to the id of the account
    signUp created. *)
Theorem signUp_then_signIn (hmac : string -> string -> string)
    (bcrypt_hash : string -> nat -> string) (bcrypt_compare : string -> string -> bool)
    (userName password : string) (w : World) :
  bcrypt_compare password (bcrypt_hash password saltRounds) = true ->
  fault w = None -> find_user_name userName (users w) = None ->
  find_user_id (gen_oid (oid_counter w)) (users w) = None ->
  exists r1 w1 r2 w2 t c,
    Mutation.signUp hmac bcrypt_hash userName password w = (Ok r1, w1)
    /\ a_success r1 = true
    /\ Mutation.signIn hmac bcrypt_compare userName password w1 = (Ok r2, w2)
    /\ a_success r2 = true /\ a_token r2 = Some t
    /\ expressJwt hmac (jwt_secret w) (Some t) (now w) = Authenticated c
    /\ c_id c = Some (gen_oid (oid_counter w)).
Proof.
  intros Hc Hf Hn Hi.
  assert (Hfind : find_user_name userName
            (users w ++ [mkUser (gen_oid (oid_counter w)) userName (bcrypt_hash password saltRounds)])
          = Some (mkUser (gen_oid (oid_counter w)) userName (bcrypt_hash password saltRounds)))
    by (apply find_user_name_snoc; [exact Hn|reflexivity]).
  unfold Mutation.signUp, Mutation.signIn, bind, users_findOne_name, users_insertOne,
    store_call, get_world, ret.
  do 6 eexists. split.
  { repeat progress (cbn -[gen_oid find_user_name find_user_id JWT.sign saltRounds];
                     rewrite ?Hf, ?Hn, ?Hi). reflexivity. }
  split; [reflexivity|]. split.
  { repeat progress (cbn -[gen_oid find_user_name find_user_id JWT.sign saltRounds];
                     rewrite ?Hf, ?Hfind, ?Hc). reflexivity. }
  split; [reflexivity|]. split; [reflexivity|].
  unfold expressJwt. rewrite verify_sign. cbn zeta. cbn [c_exp option_map].
  destruct (Z.geb_spec (now w / 1000) (now w / 1000 + 86400)); [lia|].
  split; reflexivity.
Qed.

(** ** Post mutations on existing and missing posts *)

(** X4: when post ids are unique, deletePost of an existing post answers
    "Post delete successfully!", and afterwards that id is no longer found,
    the collection is one shorter, and every other id finds what it found
    before. *)
Theorem deletePost_removes (u : Claims) (s o : string) (p : Post) (w : World) :
  fault w = None -> objectid_of_string s = Ok o -> find_post o (posts w) = Some p ->
  NoDup (map p_id (posts w)) ->
  exists w', Mutation.deletePost (Some u) (Some s) w
             = (Ok (envelope true "Post delete successfully!"), w')
    /\ find_post o (posts w') = None
    /\ length (posts w') = pred (length (posts w))
    /\ (forall o', o' <> o -> find_post o' (posts w') = find_post o' (posts w)).
Proof.
  intros Hf Hs Hp Hnd.
  destruct (delete_first_spec o (posts w) p Hp Hnd) as (ps' & Hd & Hn & Hl & Ho).
  unfold Mutation.deletePost, try_catch, bind, ObjectID, posts_deleteOne, store_call.
  rewrite Hs. cbn -[delete_first find_post]. rewrite Hf. cbn -[delete_first find_post].
  rewrite Hd. eexists. split; [reflexivity|]. cbn [posts set_posts].
  split; [exact Hn|]. split; [exact Hl|exact Ho].
Qed.

(** X5: for an id that no post has, deletePost, updatePost and likePost all
    answer "Post does not exist!" and leave the posts unchanged. *)
Theorem mutations_missing_post (u : Claims) (data : PostData) (s o : string) (w : World) :
  fault w = None -> objectid_of_string s = Ok o -> find_post o (posts w) = None ->
  (exists w', Mutation.deletePost (Some u) (Some s) w
              = (Ok (envelope false "Post does not exist!"), w') /\ posts w' = posts w)
  /\ (exists w', Mutation.updatePost (Some u) data (Some s) w
              = (Ok (envelope false "Post does not exist!"), w') /\ posts w' = posts w)
  /\ (exists w', Mutation.likePost (Some u) (Some s) w
              = (Ok (envelope false "Post does not exist!"), w') /\ posts w' = posts w).
Proof.
  intros Hf Hs Hn.
  pose proof (delete_first_none o (posts w) Hn) as Hd.
  pose proof (update_first_none o (Mutation.set_data data) (posts w) Hn) as Hu.
  pose proof (update_first_none o Mutation.inc_likes (posts w) Hn) as Hl.
  unfold Mutation.deletePost, Mutation.updatePost, Mutation.likePost, try_catch, bind,
    ObjectID, posts_deleteOne, posts_findOneAndUpdate, store_call.
  rewrite Hs. cbn -[delete_first update_first]. rewrite Hf.
  cbn -[delete_first update_first]. rewrite Hd, Hu, Hl.
  repeat split; eexists; split; reflexivity.
Qed.

(** X6: updatePost of an existing post answers with the updated post: the
    title and content given in [data] replace the stored ones, a field sent
    as [null] becomes [null] and a field left out keeps its value, while likes, author, createdAt and updatedAt are
    those stored before (updatedAt is not refreshed); the store holds the
    same post under that id. *)
Theorem updatePost_fields (u : Claims) (data : PostData) (s o : string) (p : Post)
    (w : World) :
  fault w = None -> objectid_of_string s = Ok o -> find_post o (posts w) = Some p ->
  exists q w', Mutation.updatePost (Some u) data (Some s) w
               = (Ok (post_success q "Post updated successfully!"), w')
    /\ find_post o (posts w') = Some q
    /\ p_id q = o
    /\ p_title q = match d_title data with
                   | Given t => Some t | Null => None | Absent => p_title p end
    /\ p_content q = match d_content data with
                     | Given c => Some c | Null => None | Absent => p_content p end
    /\ p_likes q = p_likes p /\ p_author q = p_author p
    /\ p_createdAt q = p_createdAt p /\ p_updatedAt q = p_updatedAt p.
Proof.
  intros Hf Hs Hp.
  destruct (update_first_spec o (Mutation.set_data data) (posts w) p
              (fun x => eq_refl) Hp) as (ps' & Hu & _ & Ho & _).
  exists (Mutation.set_data data p).
  unfold Mutation.updatePost, try_catch, bind, ObjectID, posts_findOneAndUpdate, store_call.
  rewrite Hs. cbn -[update_first find_post Mutation.set_data]. rewrite Hf.
  cbn -[update_first find_post Mutation.set_data]. rewrite Hu.
  eexists. split; [reflexivity|]. split; [exact Ho|].
  split; [exact (find_post_id _ _ _ Hp)|]. repeat split.
Qed.

(** ** Query.post, Post.author and currentUser *)

(** X7: Query.post answers with the stored fields of the post that has the
    id, and throws [UserInputError "Invalid post id!"] when no post has it. *)
Theorem post_lookup (s o : string) (w : World) :
  fault w = None -> objectid_of_string s = Ok o ->
  fst (Query.post (Some s) w)
  = match find_post o (posts w) with
    | Some p => Ok (post_fields p)
    | None => Exn (mkErr UserInputError "Invalid post id!")
    end.
Proof.
  intros Hf Hs. unfold Query.post, bind, ObjectID, posts_findOne, store_call.
  rewrite Hs. cbn -[find_post]. rewrite Hf. cbn -[find_post].
  destruct (find_post o (posts w)); reflexivity.
Qed.

(** X8: the author field of a post resolves to the id and user name of the
    account its author reference names; when no account has that id the
    resolver throws a [TypeError] (reading [_id] of null). *)
Theorem author_lookup (parent : PostResp) (a o : string) (w : World) :
  r_author parent = Some a -> fault w = None -> objectid_of_string a = Ok o ->
  fst (PostType.author parent w)
  = match find_user_id o (users w) with
    | Some u => Ok (mkUserResp (u_id u) (u_userName u))
    | None => Exn (null_read "_id")
    end.
Proof.
  intros Ha Hf Hs. unfold PostType.author, bind, ObjectID, users_findOne_id, store_call.
  rewrite Ha, Hs. cbn -[find_user_id]. rewrite Hf. cbn -[find_user_id].
  destruct (find_user_id o (users w)); reflexivity.
Qed.

(** X9: currentUser, for an identity whose [id] names an existing account,
    answers with that account's id and user name, after one store call. *)
Theorem currentUser_existing (c : Claims) (uid o : string) (u : User) (w : World) :
  c_id c = Some uid -> objectid_of_string uid = Ok o -> fault w = None ->
  find_user_id o (users w) = Some u ->
  Query.currentUser (Some c) w = (Ok (RetValue (mkUserResp (u_id u) (u_userName u))), bump_calls w).
Proof.
  intros Hc Hs Hf Hu.
  unfold Query.currentUser, try_catch, bind, ObjectID, users_findOne_id, store_call.
  rewrite Hc, Hs. cbn -[find_user_id]. rewrite Hf. cbn -[find_user_id]. rewrite Hu.
  reflexivity.
Qed.

(** ** Query.posts: a page of the posts, newest first *)


Lemma insert_desc_perm (p : Post) (l : list Post) :
  Permutation (insert_desc p l) (p :: l).
Proof.
  induction l as [|a r IH]; simpl; [reflexivity|].
  destruct (p_createdAt a <? p_createdAt p)%Z; [reflexivity|].
  etransitivity; [apply perm_skip, IH|apply perm_swap].
Qed.

Lemma sort_createdAt_desc_perm (l : list Post) : Permutation (sort_createdAt_desc l) l.
Proof.
  induction l as [|a r IH]; simpl; [reflexivity|].
  rewrite insert_desc_perm. now apply perm_skip.
Qed.

Lemma insert_desc_hd (a p : Post) (l : list Post) :
  HdRel newer_first a l -> newer_first a p -> HdRel newer_first a (insert_desc p l).
Proof.
  intros Hl Hp. destruct l as [|b r]; simpl.
  - now constructor.
  - destruct (p_createdAt b <? p_createdAt p)%Z; constructor; [exact Hp|].
    now inversion Hl.
Qed.

Lemma insert_desc_sorted (p : Post) (l : list Post) :
  Sorted newer_first l -> Sorted newer_first (insert_desc p l).
Proof.
  induction l as [|a r IH]; simpl; intros H.
  - repeat constructor.
  - destruct (Z.ltb_spec (p_createdAt a) (p_createdAt p)) as [E|E].
    + constructor; [exact H|]. constructor. unfold newer_first. lia.
    + apply Sorted_inv in H as [Hr Ha]. constructor; [now apply IH|].
      apply insert_desc_hd; [exact Ha|]. unfold newer_first. lia.
Qed.

Lemma sort_createdAt_desc_sorted (l : list Post) : Sorted newer_first (sort_createdAt_desc l).
Proof.
  induction l as [|a r IH]; simpl; [constructor|]. now apply insert_desc_sorted.
Qed.

Lemma sorted_app_r (l1 l2 : list Post) : Sorted newer_first (l1 ++ l2) -> Sorted newer_first l2.
Proof.
  induction l1 as [|a r IH]; simpl; intros H; [exact H|].
  apply Sorted_inv in H as [H _]. now apply IH.
Qed.

Lemma sorted_app_l (l1 l2 : list Post) : Sorted newer_first (l1 ++ l2) -> Sorted newer_first l1.
Proof.
  induction l1 as [|a r IH]; simpl; intros H; [constructor|].
  apply Sorted_inv in H as [Hs Hh]. constructor; [now apply IH|].
  destruct r as [|b r']; [constructor|]. inversion Hh; now constructor.
Qed.

(** X10: with a non-negative [offset] and [limit], Query.posts answers,
    after one store call, with a page of the stored posts taken newest
    first: the posts sorted by decreasing [createdAt] split into a part of
    [offset] posts before the page, the page, and the rest; the page has
    [limit] posts, or fewer at the end of the collection. A limit of 0, like
    a missing one, counts as 10, and a missing offset as 0. *)
Theorem posts_page (off lim : Z) (w : World) :
  fault w = None -> (0 <= off)%Z -> (0 <= lim)%Z ->
  exists pre ps rest,
    Query.posts (Some off) (Some lim) w = (Ok (map post_fields ps), bump_calls w)
    /\ Sorted newer_first (pre ++ ps ++ rest)%list
    /\ Sorted newer_first ps
    /\ Permutation (pre ++ ps ++ rest)%list (posts w)
    /\ length pre = Nat.min (Z.to_nat off) (length (posts w))
    /\ length ps = Nat.min (if (lim =? 0)%Z then 10%nat else Z.to_nat lim)
                           (length (posts w) - Z.to_nat off)
    /\ Query.posts None (Some lim) w = Query.posts (Some 0%Z) (Some lim) w
    /\ Query.posts (Some off) None w = Query.posts (Some off) (Some 0%Z) w.
Proof.
  intros Hf Hoff Hlim.
  set (S := sort_createdAt_desc (posts w)).
  set (k := Z.to_nat (Z.abs (if (lim =? 0)%Z then 10%Z else lim))).
  exists (firstn (Z.to_nat off) S), (firstn k (skipn (Z.to_nat off) S)),
    (skipn k (skipn (Z.to_nat off) S)).
  assert (HS : (firstn (Z.to_nat off) S ++ firstn k (skipn (Z.to_nat off) S)
               ++ skipn k (skipn (Z.to_nat off) S))%list = S)
    by (now rewrite !firstn_skipn).
  assert (Hlen : length S = length (posts w))
    by (apply Permutation_length, sort_createdAt_desc_perm).
  split.
  { unfold Query.posts, bind, posts_find, store_call, ret.
    cbn -[sort_createdAt_desc]. rewrite Hf.
    assert (Ho : (if truthy_int (Some off) then off else 0%Z) = off)
      by (unfold truthy_int; destruct (Z.eqb_spec off 0); simpl; congruence).
    assert (Hl : (if truthy_int (Some lim) then lim else 10%Z)
                 = (if (lim =? 0)%Z then 10%Z else lim))
      by (unfold truthy_int; destruct (lim =? 0)%Z; reflexivity).
    cbn -[sort_createdAt_desc] in Ho, Hl |- *. rewrite Ho, Hl.
    destruct (Z.ltb_spec off 0); [lia|]. reflexivity. }
  rewrite HS. split; [apply sort_createdAt_desc_sorted|].
  split.
  { pose proof (sort_createdAt_desc_sorted (posts w)) as H. fold S in H.
    rewrite <- HS in H. apply sorted_app_r in H. now apply sorted_app_l in H. }
  split; [apply sort_createdAt_desc_perm|].
  split; [now rewrite length_firstn, Hlen|].
  split.
  { rewrite length_firstn, length_skipn, Hlen. unfold k.
    destruct (Z.eqb_spec lim 0); [reflexivity|].
    now rewrite Z.abs_eq. }
  split; reflexivity.
Qed.

(** ** What the resolvers write *)


Section Keeps.
Variable P : World -> Prop.
Hypothesis P_calls : forall w, P w -> P (bump_calls w).
Hypothesis P_counter : forall w, P w -> P (bump_counter w).

Lemma keeps_ret {A} (a : A) : keeps P (ret a).
Proof. intros w H. exact H. Qed.

Lemma keeps_throw {A} (e : Err) : keeps P (@throw A e).
Proof. intros w H. exact H. Qed.

Lemma keeps_get_world : keeps P get_world.
Proof. intros w H. exact H. Qed.

Lemma keeps_bind {A B} (m : M A) (k : A -> M B) :
  keeps P m -> (forall a, keeps P (k a)) -> keeps P (bind m k).
Proof.
  intros Hm Hk w H. unfold bind. specialize (Hm w H).
  destruct (m w) as [[a|e] w']; simpl in *; [now apply Hk|exact Hm].
Qed.

Lemma keeps_try_catch {A} (m : M A) (h : Err -> M A) :
  keeps P m -> (forall e, keeps P (h e)) -> keeps P (try_catch m h).
Proof.
  intros Hm Hh w H. unfold try_catch. specialize (Hm w H).
  destruct (m w) as [[a|e] w']; simpl in *; [exact Hm|now apply Hh].
Qed.

Lemma keeps_ObjectID (v : option string) : keeps P (ObjectID v).
Proof. intros w H. destruct v; simpl; [exact H|now apply P_counter]. Qed.

Lemma keeps_store_call {A} (f : World -> Outcome A * World) :
  (forall w, P w -> P (snd (f w))) -> keeps P (store_call f).
Proof.
  intros Hf w H. unfold store_call. destruct (fault w); simpl; [|apply Hf]; now apply P_calls.
Qed.

Lemma keeps_posts_findOne (o : string) : keeps P (posts_findOne o).
Proof. apply keeps_store_call. now intros w H. Qed.

Lemma keeps_users_findOne_id (o : string) : keeps P (users_findOne_id o).
Proof. apply keeps_store_call. now intros w H. Qed.

Lemma keeps_users_findOne_name (n : string) : keeps P (users_findOne_name n).
Proof. apply keeps_store_call. now intros w H. Qed.

Lemma keeps_posts_find (sorted : bool) (skip limit : Z) : keeps P (posts_find sorted skip limit).
Proof. apply keeps_store_call. intros w H. cbv zeta. now destruct (skip <? 0)%Z. Qed.

Lemma keeps_getUser (hmac : string -> string -> string) (a : option string) :
  keeps P (Legacy.getUser hmac a).
Proof. intros w H. unfold Legacy.getUser. destruct a as [[|c s]|]; exact H. Qed.

End Keeps.




Lemma delete_first_forall (Q : Post -> Prop) (o : string) (ps ps' : list Post) :
  Forall Q ps -> delete_first o ps = Some ps' -> Forall Q ps'.
Proof.
  revert ps'. induction ps as [|a r IH]; intros ps' H E; simpl in E; [discriminate|].
  inversion H; subst. destruct (String.eqb (p_id a) o).
  - injection E as <-. assumption.
  - destruct (delete_first o r) as [r'|] eqn:Er; simpl in E; [|discriminate].
    injection E as <-. constructor; auto.
Qed.

Lemma update_first_forall (Q : Post -> Prop) (o : string) (g : Post -> Post)
    (ps ps' : list Post) (p : Post) :
  (forall x, Q x -> Q (g x)) -> Forall Q ps -> update_first o g ps = Some (p, ps') -> Forall Q ps'.
Proof.
  intros Hg. revert ps'. induction ps as [|a r IH]; intros ps' H E; simpl in E; [discriminate|].
  inversion H; subst. destruct (String.eqb (p_id a) o).
  - injection E as _ <-. constructor; auto.
  - destruct (update_first o g r) as [[q r']|] eqn:Er; simpl in E; [|discriminate].
    injection E as -> <-. constructor; auto.
Qed.

Lemma likes_nonneg_calls (w : World) : likes_nonneg w -> likes_nonneg (bump_calls w).
Proof. exact (fun H => H). Qed.

Lemma likes_nonneg_counter (w : World) : likes_nonneg w -> likes_nonneg (bump_counter w).
Proof. exact (fun H => H). Qed.

Lemma posts_are_calls (ps : list Post) (w : World) : posts_are ps w -> posts_are ps (bump_calls w).
Proof. exact (fun H => H). Qed.

Lemma posts_are_counter (ps : list Post) (w : World) :
  posts_are ps w -> posts_are ps (bump_counter w).
Proof. exact (fun H => H). Qed.

Lemma users_are_calls (us : list User) (w : World) : users_are us w -> users_are us (bump_calls w).
Proof. exact (fun H => H). Qed.

Lemma users_are_counter (us : list User) (w : World) :
  users_are us w -> users_are us (bump_counter w).
Proof. exact (fun H => H). Qed.

Lemma likes_nonneg_insertOne (doc : string -> Post) :
  (forall id, (0 <= p_likes (doc id))%Z) -> keeps likes_nonneg (posts_insertOne doc).
Proof.
  intros Hd. apply keeps_store_call; [exact likes_nonneg_calls|].
  intros w H. cbv zeta. destruct (find_post _ _); [exact H|].
  apply Forall_app. split; [exact H|]. constructor; [apply Hd|constructor].
Qed.

Lemma likes_nonneg_deleteOne (o : string) : keeps likes_nonneg (posts_deleteOne o).
Proof.
  apply keeps_store_call; [exact likes_nonneg_calls|].
  intros w H. destruct (delete_first o (posts w)) as [ps|] eqn:E; [|exact H].
  exact (delete_first_forall _ _ _ _ H E).
Qed.

Lemma likes_nonneg_findOneAndUpdate (o : string) (g : Post -> Post) (b : bool) :
  (forall p, (0 <= p_likes p)%Z -> (0 <= p_likes (g p))%Z) ->
  keeps likes_nonneg (posts_findOneAndUpdate o g b).
Proof.
  intros Hg. apply keeps_store_call; [exact likes_nonneg_calls|].
  intros w H. destruct (update_first o g (posts w)) as [[p ps]|] eqn:E; [|exact H].
  exact (update_first_forall _ _ _ _ _ _ Hg H E).
Qed.

Lemma likes_nonneg_users_insertOne (doc : string -> User) : keeps likes_nonneg (users_insertOne doc).
Proof.
  apply keeps_store_call; [exact likes_nonneg_calls|].
  intros w H. cbv zeta. destruct (find_user_id _ _); exact H.
Qed.

Lemma posts_are_users_insertOne (ps : list Post) (doc : string -> User) :
  keeps (posts_are ps) (users_insertOne doc).
Proof.
  apply keeps_store_call; [exact (posts_are_calls ps)|].
  intros w H. cbv zeta. destruct (find_user_id _ _); exact H.
Qed.

Lemma users_are_insertOne (us : list User) (doc : string -> Post) :
  keeps (users_are us) (posts_insertOne doc).
Proof.
  apply keeps_store_call; [exact (users_are_calls us)|].
  intros w H. cbv zeta. destruct (find_post _ _); exact H.
Qed.

Lemma users_are_deleteOne (us : list User) (o : string) : keeps (users_are us) (posts_deleteOne o).
Proof.
  apply keeps_store_call; [exact (users_are_calls us)|].
  intros w H. destruct (delete_first o (posts w)); exact H.
Qed.

Lemma users_are_findOneAndUpdate (us : list User) (o : string) (g : Post -> Post) (b : bool) :
  keeps (users_are us) (posts_findOneAndUpdate o g b).
Proof.
  apply keeps_store_call; [exact (users_are_calls us)|].
  intros w H. destruct (update_first o g (posts w)) as [[p ps]|]; exact H.
Qed.

Create HintDb keeps_db.
#[local] Hint Resolve likes_nonneg_calls likes_nonneg_counter posts_are_calls posts_are_counter
  users_are_calls users_are_counter : keeps_db.
#[local] Hint Resolve keeps_ret keeps_throw keeps_get_world keeps_ObjectID keeps_posts_findOne
  keeps_users_findOne_id keeps_users_findOne_name keeps_posts_find keeps_getUser
  likes_nonneg_deleteOne likes_nonneg_users_insertOne posts_are_users_insertOne
  users_are_insertOne users_are_deleteOne users_are_findOneAndUpdate : keeps_db.

(** Follows the resolver's code: through binds, handlers and branches down
    to the store calls. *)
Ltac keeps_tac :=
  repeat first
    [ apply keeps_bind; [|intros ?]
    | apply keeps_try_catch; [|intros ?]
    | progress cbv zeta
    | match goal with
      | |- keeps _ (match ?x with _ => _ end) => destruct x
      end
    | apply likes_nonneg_insertOne; intros; simpl; lia
    | apply likes_nonneg_findOneAndUpdate; intros; simpl; lia
    | solve [eauto with keeps_db] ].

(** X11: no post resolver makes a like count negative: from a store where
    every post has a non-negative like count, createPost, deletePost,
    updatePost and likePost (the version of [src/resolvers.js], the one of
    [src/index.js] and the one of [part_000]) always end in such a store. *)
Theorem likes_stay_nonneg (hmac : string -> string -> string) (user : option Claims)
    (auth : option string) (data : PostData) (i : option string) :
  keeps likes_nonneg (Mutation.createPost user data)
  /\ keeps likes_nonneg (Mutation.deletePost user i)
  /\ keeps likes_nonneg (Mutation.updatePost user data i)
  /\ keeps likes_nonneg (Mutation.likePost user i)
  /\ keeps likes_nonneg (Mutation.likePost_index user i)
  /\ keeps likes_nonneg (Legacy.createPost hmac auth data)
  /\ keeps likes_nonneg (Legacy.deletePost hmac auth i)
  /\ keeps likes_nonneg (Legacy.likePost hmac auth i).
Proof.
  unfold Mutation.createPost, Mutation.deletePost, Mutation.updatePost, Mutation.likePost,
    Mutation.likePost_index, Legacy.createPost, Legacy.deletePost, Legacy.likePost.
  repeat split; keeps_tac.
Qed.

(** X12: the resolvers that deal with accounts (signUp and signIn, and
    signUp and logIn of [part_000]) and every query resolver (currentUser,
    post, posts, the author field, and posts of [part_000]) never change the
    posts collection, whatever they answer. *)
Theorem posts_untouched (hmac : string -> string -> string)
    (bcrypt_hash : string -> nat -> string) (bcrypt_compare : string -> string -> bool)
    (ps : list Post) (userName password : string) (user : option Claims)
    (i : option string) (a b : option Z) (parent : PostResp) :
  keeps (posts_are ps) (Mutation.signUp hmac bcrypt_hash userName password)
  /\ keeps (posts_are ps) (Mutation.signIn hmac bcrypt_compare userName password)
  /\ keeps (posts_are ps) (Legacy.signUp hmac bcrypt_hash userName password)
  /\ keeps (posts_are ps) (Legacy.logIn hmac bcrypt_compare userName password)
  /\ keeps (posts_are ps) (Query.currentUser user)
  /\ keeps (posts_are ps) (Query.post i)
  /\ keeps (posts_are ps) (Query.posts a b)
  /\ keeps (posts_are ps) (PostType.author parent)
  /\ keeps (posts_are ps) (Legacy.posts a b).
Proof.
  unfold Mutation.signUp, Mutation.signIn, Legacy.signUp, Legacy.logIn, Query.currentUser,
    Query.post, Query.posts, PostType.author, Legacy.posts.
  repeat split; keeps_tac.
Qed.

(** X13: only signUp adds accounts: signIn, logIn of [part_000], every post
    mutation of the three resolver versions, and every query resolver never
    change the users collection, whatever they answer. *)
Theorem users_untouched (hmac : string -> string -> string)
    (bcrypt_compare : string -> string -> bool) (us : list User)
    (userName password : string) (user : option Claims) (auth : option string)
    (data : PostData) (i : option string) (a b : option Z) (parent : PostResp) :
  keeps (users_are us) (Mutation.signIn hmac bcrypt_compare userName password)
  /\ keeps (users_are us) (Legacy.logIn hmac bcrypt_compare userName password)
  /\ keeps (users_are us) (Mutation.createPost user data)
  /\ keeps (users_are us) (Mutation.deletePost user i)
  /\ keeps (users_are us) (Mutation.updatePost user data i)
  /\ keeps (users_are us) (Mutation.likePost user i)
  /\ keeps (users_are us) (Mutation.likePost_index user i)
  /\ keeps (users_are us) (Legacy.createPost hmac auth data)
  /\ keeps (users_are us) (Legacy.deletePost hmac auth i)
  /\ keeps (users_are us) (Legacy.likePost hmac auth i)
  /\ keeps (users_are us) (Query.currentUser user)
  /\ keeps (users_are us) (Query.post i)
  /\ keeps (users_are us) (Query.posts a b)
  /\ keeps (users_are us) (PostType.author parent)
  /\ keeps (users_are us) (Legacy.posts a b).
Proof.
  unfold Mutation.signIn, Legacy.logIn, Mutation.createPost, Mutation.deletePost,
    Mutation.updatePost, Mutation.likePost, Mutation.likePost_index, Legacy.createPost,
    Legacy.deletePost, Legacy.likePost, Query.currentUser, Query.post, Query.posts,
    PostType.author, Legacy.posts.
  repeat split; keeps_tac.
Qed.

(** ** The resolvers of [part_000] *)

Lemma sign_nonempty (hmac : string -> string -> string) (id userId : option string)
    (secret : string) (expiresIn : option Z) (now_ms : Z) :
  JWT.sign hmac id userId secret expiresIn now_ms <> EmptyString.
Proof. unfold JWT.sign, JWT.signing_input. discriminate. Qed.

Lemma getUser_token (hmac : string -> string -> string) (t : string) (w : World) :
  t <> EmptyString ->
  Legacy.getUser hmac (Some t) w = (JWT.verify hmac t (jwt_secret w) (now w), w).
Proof. intros H. destruct t; [congruence|reflexivity]. Qed.

(** X14: in [part_000], likePost by a caller whose token carries a
    [userId] answers with the post as it was before the like, while the
    store holds it with one more like. *)
Theorem legacy_likePost_returns_original (hmac : string -> string -> string)
    (auth : option string) (c : Claims) (s o : string) (p : Post) (w : World) :
  Legacy.getUser hmac auth w = (Ok c, w) -> truthy_str (c_userId c) = true ->
  fault w = None -> objectid_of_string s = Ok o -> find_post o (posts w) = Some p ->
  exists r w' q, Legacy.likePost hmac auth (Some s) w = (Ok (Some r), w')
    /\ r = post_success p "Post liked successfully!"
    /\ r_likes r = Some (p_likes p)
    /\ find_post o (posts w') = Some q
    /\ p_likes q = (p_likes p + 1)%Z.
Proof.
  intros Hg Hu Hf Hs Hp.
  destruct (update_first_spec o Mutation.inc_likes (posts w) p (fun x => eq_refl) Hp)
    as (ps' & Hup & _ & Ho & _).
  unfold Legacy.likePost, try_catch, bind, ObjectID, posts_findOneAndUpdate, store_call.
  rewrite Hg, Hu, Hs. cbn -[update_first find_post]. rewrite Hf.
  cbn -[update_first find_post]. rewrite Hup.
  do 3 eexists. split; [reflexivity|]. split; [reflexivity|]. split; [reflexivity|].
  split; [exact Ho|reflexivity].
Qed.

(** X15: in [part_000], a verified token without a [userId] (such as the
    [{ id }] tokens of [src/resolvers.js]) makes createPost and deletePost
    answer "User not found!" and likePost resolve to nothing, without any
    store call. *)
Theorem legacy_token_without_userId (hmac : string -> string -> string)
    (auth : option string) (c : Claims) (data : PostData) (i : option string) (w : World) :
  Legacy.getUser hmac auth w = (Ok c, w) -> truthy_str (c_userId c) = false ->
  Legacy.createPost hmac auth data w = (Ok (envelope false "User not found!"), w)
  /\ Legacy.deletePost hmac auth i w = (Ok (envelope false "User not found!"), w)
  /\ Legacy.likePost hmac auth i w = (Ok None, w).
Proof.
  intros Hg Hu.
  unfold Legacy.createPost, Legacy.deletePost, Legacy.likePost, try_catch, bind.
  rewrite Hg, Hu. repeat split.
Qed.

(** X16: in [part_000], when the Authorization header does not verify
    (missing, malformed, expired or wrongly signed), deletePost answers
    "Invalid Auth token!" if the error message contains "jwt" and
    "Something went wrong!" otherwise, createPost always answers "Something
    went wrong!", and likePost resolves to that same envelope; none of them
    calls the store. *)
Theorem legacy_auth_failure (hmac : string -> string -> string)
    (auth : option string) (e : Err) (data : PostData) (i : option string) (w : World) :
  Legacy.getUser hmac auth w = (Exn e, w) ->
  Legacy.deletePost hmac auth i w
  = (Ok (if indexOf_ge0 (e_message e) "jwt" then envelope false "Invalid Auth token!"
         else something_went_wrong), w)
  /\ Legacy.createPost hmac auth data w = (Ok something_went_wrong, w)
  /\ Legacy.likePost hmac auth i w = (Ok (Some something_went_wrong), w).
Proof.
  intros Hg.
  unfold Legacy.createPost, Legacy.deletePost, Legacy.likePost, try_catch, bind.
  rewrite Hg. split; [|split; reflexivity].
  now destruct (indexOf_ge0 (e_message e) "jwt").
Qed.

(** The token of a logIn of [part_000] that succeeded. *)
Lemma logIn_token_shape (hmac : string -> string -> string)
    (bcrypt_compare : string -> string -> bool) (userName password : string)
    (w w' : World) (r : AuthResponse) (t : string) :
  Legacy.logIn hmac bcrypt_compare userName password w = (Ok r, w') ->
  a_token r = Some t ->
  exists u, find_user_name userName (users w) = Some u
    /\ t = JWT.sign hmac None (Some (u_id u)) (jwt_secret w) None (now w).
Proof.
  unfold Legacy.logIn, bind, users_findOne_name, store_call, get_world, ret, throw.
  intros H Ht. destruct (fault w); [discriminate|].
  cbn -[find_user_name JWT.sign] in H.
  destruct (find_user_name userName (users w)) as [u|] eqn:Ef;
    cbn -[JWT.sign] in H; [|discriminate].
  destruct (bcrypt_compare password (u_password u)); cbn -[JWT.sign] in H; injection H as <- _;
    cbn -[JWT.sign] in Ht; [|discriminate].
  exists u. split; [reflexivity|]. congruence.
Qed.

(** X17: a token issued by logIn of [part_000] never expires: in any later
    world with the same secret, getUser turns it into claims whose [userId]
    is the id of the account logged in, with no [id] and no expiry. *)
Theorem legacy_logIn_token_forever (hmac : string -> string -> string)
    (bcrypt_compare : string -> string -> bool) (userName password : string)
    (w w' w2 : World) (r : AuthResponse) (t : string) (u : User) :
  Legacy.logIn hmac bcrypt_compare userName password w = (Ok r, w') ->
  a_token r = Some t ->
  find_user_name userName (users w) = Some u ->
  jwt_secret w2 = jwt_secret w ->
  Legacy.getUser hmac (Some t) w2 = (Ok (mkClaims None (Some (u_id u)) (now w / 1000) None), w2).
Proof.
  intros H Ht Hu Hs.
  destruct (logIn_token_shape _ _ _ _ _ _ _ _ H Ht) as (u' & Hu' & ->).
  rewrite Hu in Hu'. injection Hu' as <-.
  rewrite getUser_token by apply sign_nonempty. rewrite Hs, verify_sign. reflexivity.
Qed.

(** X18: signUp of [part_000] with a new user name answers success with no
    message and a token; in any later world with the same secret, getUser
    turns the token into claims whose [userId] is the id of the account just
    created, which signUp's world finds under that user name. *)
Theorem legacy_signUp_token (hmac : string -> string -> string)
    (bcrypt_hash : string -> nat -> string) (userName password : string) (w w2 : World) :
  fault w = None -> find_user_name userName (users w) = None ->
  find_user_id (gen_oid (oid_counter w)) (users w) = None ->
  jwt_secret w2 = jwt_secret w ->
  exists t w' u, Legacy.signUp hmac bcrypt_hash userName password w
                 = (Ok (mkAuthResponse (Some t) true None), w')
    /\ find_user_name userName (users w') = Some u
    /\ Legacy.getUser hmac (Some t) w2
       = (Ok (mkClaims None (Some (u_id u)) (now w / 1000) None), w2).
Proof.
  intros Hf Hn Hi Hs.
  assert (Hfind : find_user_name userName
            (users w ++ [mkUser (gen_oid (oid_counter w)) userName (bcrypt_hash password saltRounds)])
          = Some (mkUser (gen_oid (oid_counter w)) userName (bcrypt_hash password saltRounds)))
    by (apply find_user_name_snoc; [exact Hn|reflexivity]).
  unfold Legacy.signUp, bind, users_findOne_name, users_insertOne, store_call, get_world, ret.
  do 3 eexists. split.
  { repeat progress (cbn -[gen_oid find_user_name find_user_id JWT.sign saltRounds];
                     rewrite ?Hf, ?Hn, ?Hi). reflexivity. }
  split; [cbn [users set_users]; exact Hfind|].
  rewrite getUser_token by apply sign_nonempty. rewrite Hs, verify_sign. reflexivity.
Qed.

(** X19: with a non-negative skip and take, posts of [part_000] answers,
    after one store call, with a slice of the collection in storage order
    (no sorting): the collection splits into [skip] posts before the slice,
    the slice, and the rest; the slice has [take] posts, or fewer at the end
    of the collection; a take of 0 counts as 10. *)
Theorem legacy_posts_slice (off lim : Z) (w : World) :
  fault w = None -> (0 <= off)%Z -> (0 <= lim)%Z ->
  exists pre ps rest,
    Legacy.posts (Some off) (Some lim) w = (Ok (map post_fields ps), bump_calls w)
    /\ (pre ++ ps ++ rest)%list = posts w
    /\ length pre = Nat.min (Z.to_nat off) (length (posts w))
    /\ length ps = Nat.min (if (lim =? 0)%Z then 10%nat else Z.to_nat lim)
                           (length (posts w) - Z.to_nat off).
Proof.
  intros Hf Hoff Hlim.
  set (k := Z.to_nat (Z.abs (if (lim =? 0)%Z then 10%Z else lim))).
  exists (firstn (Z.to_nat off) (posts w)), (firstn k (skipn (Z.to_nat off) (posts w))),
    (skipn k (skipn (Z.to_nat off) (posts w))).
  split.
  { unfold Legacy.posts, bind, posts_find, store_call, ret.
    cbn. rewrite Hf.
    assert (Ho : (if truthy_int (Some off) then off else 0%Z) = off)
      by (unfold truthy_int; destruct (Z.eqb_spec off 0); simpl; congruence).
    assert (Hl : (if truthy_int (Some lim) then lim else 10%Z)
                 = (if (lim =? 0)%Z then 10%Z else lim))
      by (unfold truthy_int; destruct (lim =? 0)%Z; reflexivity).
    cbn in Ho, Hl |- *. rewrite Ho, Hl.
    destruct (Z.ltb_spec off 0); [lia|]. reflexivity. }
  split; [now rewrite !firstn_skipn|].
  split; [now rewrite length_firstn|].
  rewrite length_firstn, length_skipn. unfold k.
  destruct (Z.eqb_spec lim 0); [reflexivity|]. now rewrite Z.abs_eq.
Qed.

(** ** An identity without [id] in [src/resolvers.js] *)

(** X20: createPost for a verified identity whose token has no [id] (such
    as a [{ userId }] token of [part_000]) still stores a post, whose author
    is a freshly generated id; when no account has that id, the author field
    of the answer then fails with a [TypeError]. *)
Theorem createPost_without_id (c : Claims) (data : PostData) (w : World) :
  c_id c = None -> fault w = None ->
  find_post (gen_oid (S (oid_counter w))) (posts w) = None ->
  find_user_id (gen_oid (oid_counter w)) (users w) = None ->
  exists r w', Mutation.createPost (Some c) data w = (Ok r, w')
    /\ r_success r = Some true
    /\ r_author r = Some (gen_oid (oid_counter w))
    /\ fst (PostType.author r w') = Exn (null_read "_id").
Proof.
  intros Hc Hf Hfresh Hu.
  assert (Hq : find_post (gen_oid (S (oid_counter w))) (posts w ++
                 [mkPost (gen_oid (S (oid_counter w))) (field_value (d_title data)) (field_value (d_content data))
                    (now w) (now w) (gen_oid (oid_counter w)) 0])
               = Some (mkPost (gen_oid (S (oid_counter w))) (field_value (d_title data)) (field_value (d_content data))
                         (now w) (now w) (gen_oid (oid_counter w)) 0))
    by (apply find_post_snoc; [exact Hfresh | reflexivity]).
  unfold Mutation.createPost, try_catch, bind, get_world, ObjectID, generate_oid,
    posts_insertOne, posts_findOne, store_call.
  rewrite Hc. cbn -[gen_oid find_post]. rewrite Hf. cbn -[gen_oid find_post].
  rewrite Hfresh. cbn -[gen_oid find_post]. rewrite Hf. cbn -[gen_oid find_post].
  rewrite Hq. do 2 eexists. split; [reflexivity|]. split; [reflexivity|].
  split; [reflexivity|].
  unfold PostType.author, bind, ObjectID, users_findOne_id, store_call.
  cbn [r_author post_success p_author]. rewrite gen_oid_valid.
  cbn -[gen_oid find_user_id]. rewrite Hf. cbn -[gen_oid find_user_id]. rewrite Hu.
  reflexivity.
Qed.

(** ** Witnesses: the properties at concrete inputs *)

Lemma signUp_existing_name_witness :
  fault world0 = None /\ find_user_name "alice" (users world0) = Some alice
  /\ Mutation.signUp toy_hmac toy_hash "alice" "other" world0
     = (Ok (mkAuthResponse None false (Some "Username already exists!")), bump_calls world0).
Proof.
  split; [reflexivity|]. split; [vm_compute; reflexivity|].
  exact (signUp_existing_name toy_hmac toy_hash "alice" "other" world0 alice
    ltac:(reflexivity) ltac:(vm_compute; reflexivity)).
Defined.

Lemma signIn_password_cases_witness :
  fault world0 = None /\ find_user_name "alice" (users world0) = Some alice
  /\ toy_compare "wrong" (u_password alice) = false
  /\ fst (Mutation.signIn toy_hmac toy_compare "alice" "wrong" world0)
     = Ok (mkAuthResponse None false (Some "Invalid username or password!")).
Proof.
  split; [reflexivity|]. split; [vm_compute; reflexivity|].
  split; [vm_compute; reflexivity|].
  pose proof (signIn_password_cases toy_hmac toy_compare "alice" "wrong" world0 alice
    ltac:(reflexivity) ltac:(vm_compute; reflexivity)) as H.
  destruct H as (_ & H). apply H. vm_compute. reflexivity.
Defined.

Lemma signUp_then_signIn_witness :
  toy_compare "pw2" (toy_hash "pw2" saltRounds) = true
  /\ fault world0 = None /\ find_user_name "bob" (users world0) = None
  /\ find_user_id (gen_oid (oid_counter world0)) (users world0) = None
  /\ exists r1 w1 r2 w2,
       Mutation.signUp toy_hmac toy_hash "bob" "pw2" world0 = (Ok r1, w1)
       /\ Mutation.signIn toy_hmac toy_compare "bob" "pw2" w1 = (Ok r2, w2)
       /\ a_success r2 = true.
Proof.
  split; [vm_compute; reflexivity|]. split; [reflexivity|].
  split; [vm_compute; reflexivity|]. split; [vm_compute; reflexivity|].
  pose proof (signUp_then_signIn toy_hmac toy_hash toy_compare "bob" "pw2" world0
    ltac:(vm_compute; reflexivity) ltac:(reflexivity) ltac:(vm_compute; reflexivity)
    ltac:(vm_compute; reflexivity)) as H.
  destruct H as (r1 & w1 & r2 & w2 & t & c & H1 & _ & H2 & H3 & _).
  exists r1, w1, r2, w2. auto.
Defined.

Lemma deletePost_removes_witness :
  fault world0 = None /\ objectid_of_string (gen_oid 1) = Ok (gen_oid 1)
  /\ find_post (gen_oid 1) (posts world0) = Some post0
  /\ NoDup (map p_id (posts world0))
  /\ exists w', Mutation.deletePost (Some claims0) (Some (gen_oid 1)) world0
                = (Ok (envelope true "Post delete successfully!"), w')
       /\ find_post (gen_oid 1) (posts w') = None.
Proof.
  split; [reflexivity|]. split; [vm_compute; reflexivity|]. split; [vm_compute; reflexivity|].
  assert (Hnd : NoDup (map p_id (posts world0))) by (simpl; repeat constructor; intros []).
  split; [exact Hnd|].
  pose proof (deletePost_removes claims0 (gen_oid 1) (gen_oid 1) post0 world0
    ltac:(reflexivity) ltac:(vm_compute; reflexivity) ltac:(vm_compute; reflexivity) Hnd) as H.
  destruct H as (w' & H1 & H2 & _). exists w'. auto.
Defined.

Lemma mutations_missing_post_witness :
  fault world0 = None /\ objectid_of_string (gen_oid 5) = Ok (gen_oid 5)
  /\ find_post (gen_oid 5) (posts world0) = None
  /\ exists w', Mutation.likePost (Some claims0) (Some (gen_oid 5)) world0
                = (Ok (envelope false "Post does not exist!"), w') /\ posts w' = posts world0.
Proof.
  split; [reflexivity|]. split; [vm_compute; reflexivity|]. split; [vm_compute; reflexivity|].
  pose proof (mutations_missing_post claims0 data0 (gen_oid 5) (gen_oid 5) world0
    ltac:(reflexivity) ltac:(vm_compute; reflexivity) ltac:(vm_compute; reflexivity)) as H.
  destruct H as (_ & _ & H). exact H.
Defined.

Lemma updatePost_fields_witness :
  fault world0 = None /\ objectid_of_string (gen_oid 1) = Ok (gen_oid 1)
  /\ find_post (gen_oid 1) (posts world0) = Some post0
  /\ exists q w', Mutation.updatePost (Some claims0) data0 (Some (gen_oid 1)) world0
                  = (Ok (post_success q "Post updated successfully!"), w')
       /\ p_title q = Some "T2" /\ p_likes q = 5%Z.
Proof.
  split; [reflexivity|]. split; [vm_compute; reflexivity|]. split; [vm_compute; reflexivity|].
  pose proof (updatePost_fields claims0 data0 (gen_oid 1) (gen_oid 1) post0 world0
    ltac:(reflexivity) ltac:(vm_compute; reflexivity) ltac:(vm_compute; reflexivity)) as H.
  destruct H as (q & w' & H1 & _ & _ & H2 & _ & H3 & _). exists q, w'. auto.
Defined.

Lemma post_lookup_witness :
  fault world0 = None /\ objectid_of_string (gen_oid 5) = Ok (gen_oid 5)
  /\ fst (Query.post (Some (gen_oid 5)) world0) = Exn (mkErr UserInputError "Invalid post id!").
Proof.
  split; [reflexivity|]. split; [vm_compute; reflexivity|].
  rewrite (post_lookup (gen_oid 5) (gen_oid 5) world0 ltac:(reflexivity)
    ltac:(vm_compute; reflexivity)).
  vm_compute. reflexivity.
Defined.

Lemma author_lookup_witness :
  r_author (post_fields post0) = Some (gen_oid 0) /\ fault world0 = None
  /\ objectid_of_string (gen_oid 0) = Ok (gen_oid 0)
  /\ fst (PostType.author (post_fields post0) world0) = Ok (mkUserResp (gen_oid 0) "alice").
Proof.
  split; [reflexivity|]. split; [reflexivity|]. split; [vm_compute; reflexivity|].
  rewrite (author_lookup (post_fields post0) (gen_oid 0) (gen_oid 0) world0
    ltac:(reflexivity) ltac:(reflexivity) ltac:(vm_compute; reflexivity)).
  vm_compute. reflexivity.
Defined.

Lemma currentUser_existing_witness :
  c_id claims0 = Some (gen_oid 0) /\ objectid_of_string (gen_oid 0) = Ok (gen_oid 0)
  /\ fault world0 = None /\ find_user_id (gen_oid 0) (users world0) = Some alice
  /\ Query.currentUser (Some claims0) world0
     = (Ok (RetValue (mkUserResp (u_id alice) (u_userName alice))), bump_calls world0).
Proof.
  split; [reflexivity|]. split; [vm_compute; reflexivity|].
  split; [reflexivity|]. split; [vm_compute; reflexivity|].
  exact (currentUser_existing claims0 (gen_oid 0) (gen_oid 0) alice world0
    ltac:(reflexivity) ltac:(vm_compute; reflexivity) ltac:(reflexivity)
    ltac:(vm_compute; reflexivity)).
Defined.

Lemma posts_page_witness :
  fault world0 = None /\ (0 <= 0)%Z /\ (0 <= 0)%Z
  /\ exists pre ps rest : list Post,
       Query.posts (Some 0%Z) (Some 0%Z) world0 = (Ok (map post_fields ps), bump_calls world0)
       /\ length ps = 1%nat.
Proof.
  split; [reflexivity|]. split; [lia|]. split; [lia|].
  pose proof (posts_page 0 0 world0 ltac:(reflexivity) ltac:(lia) ltac:(lia)) as H.
  destruct H as (pre & ps & rest & H1 & _ & _ & _ & _ & H2 & _).
  exists pre, ps, rest. split; [exact H1|]. rewrite H2. reflexivity.
Defined.

Lemma legacy_likePost_returns_original_witness :
  Legacy.getUser toy_hmac (Some legacy_token0) world0 = (Ok legacy_claims0, world0)
  /\ truthy_str (c_userId legacy_claims0) = true
  /\ fault world0 = None /\ objectid_of_string (gen_oid 1) = Ok (gen_oid 1)
  /\ find_post (gen_oid 1) (posts world0) = Some post0
  /\ exists r w', Legacy.likePost toy_hmac (Some legacy_token0) (Some (gen_oid 1)) world0
                  = (Ok (Some r), w') /\ r_likes r = Some 5%Z.
Proof.
  split; [vm_compute; reflexivity|]. split; [reflexivity|]. split; [reflexivity|].
  split; [vm_compute; reflexivity|]. split; [vm_compute; reflexivity|].
  pose proof (legacy_likePost_returns_original toy_hmac (Some legacy_token0) legacy_claims0
    (gen_oid 1) (gen_oid 1) post0 world0 ltac:(vm_compute; reflexivity) ltac:(reflexivity)
    ltac:(reflexivity) ltac:(vm_compute; reflexivity) ltac:(vm_compute; reflexivity)) as H.
  destruct H as (r & w' & q & H1 & _ & H2 & _). exists r, w'. auto.
Defined.

Lemma legacy_token_without_userId_witness :
  Legacy.getUser toy_hmac (Some token0) world0 = (Ok signIn_claims0, world0)
  /\ truthy_str (c_userId signIn_claims0) = false
  /\ Legacy.likePost toy_hmac (Some token0) (Some (gen_oid 1)) world0 = (Ok None, world0).
Proof.
  split; [vm_compute; reflexivity|]. split; [reflexivity|].
  pose proof (legacy_token_without_userId toy_hmac (Some token0) signIn_claims0 data0
    (Some (gen_oid 1)) world0 ltac:(vm_compute; reflexivity) ltac:(reflexivity)) as H.
  destruct H as (_ & _ & H). exact H.
Defined.

Lemma legacy_auth_failure_witness :
  Legacy.getUser toy_hmac None world0 = (Exn (mkErr JsonWebTokenError "jwt must be provided"), world0)
  /\ Legacy.deletePost toy_hmac None (Some (gen_oid 1)) world0
     = (Ok (envelope false "Invalid Auth token!"), world0).
Proof.
  split; [reflexivity|].
  pose proof (legacy_auth_failure toy_hmac None (mkErr JsonWebTokenError "jwt must be provided")
    data0 (Some (gen_oid 1)) world0 ltac:(reflexivity)) as H.
  destruct H as (H & _). rewrite H. vm_compute. reflexivity.
Defined.

Lemma legacy_logIn_token_forever_witness :
  Legacy.logIn toy_hmac toy_compare "alice" "pw" world0 = (Ok legacy_auth0, snd logIn0)
  /\ a_token legacy_auth0 = Some legacy_logIn_token0
  /\ find_user_name "alice" (users world0) = Some alice
  /\ jwt_secret world_later = jwt_secret world0
  /\ Legacy.getUser toy_hmac (Some legacy_logIn_token0) world_later
     = (Ok (mkClaims None (Some (u_id alice)) (now world0 / 1000) None), world_later).
Proof.
  split; [vm_compute; reflexivity|]. split; [vm_compute; reflexivity|].
  split; [vm_compute; reflexivity|]. split; [reflexivity|].
  exact (legacy_logIn_token_forever toy_hmac toy_compare "alice" "pw" world0 (snd logIn0)
    world_later legacy_auth0 legacy_logIn_token0 alice ltac:(vm_compute; reflexivity)
    ltac:(vm_compute; reflexivity) ltac:(vm_compute; reflexivity) ltac:(reflexivity)).
Defined.

Lemma legacy_signUp_token_witness :
  fault world0 = None /\ find_user_name "bob" (users world0) = None
  /\ find_user_id (gen_oid (oid_counter world0)) (users world0) = None
  /\ jwt_secret world_later = jwt_secret world0
  /\ exists t w', Legacy.signUp toy_hmac toy_hash "bob" "pw2" world0
                  = (Ok (mkAuthResponse (Some t) true None), w').
Proof.
  split; [reflexivity|]. split; [vm_compute; reflexivity|].
  split; [vm_compute; reflexivity|]. split; [reflexivity|].
  pose proof (legacy_signUp_token toy_hmac toy_hash "bob" "pw2" world0 world_later
    ltac:(reflexivity) ltac:(vm_compute; reflexivity) ltac:(vm_compute; reflexivity)
    ltac:(reflexivity)) as H.
  destruct H as (t & w' & u & H & _). exists t, w'. exact H.
Defined.

Lemma legacy_posts_slice_witness :
  fault world0 = None /\ (0 <= 0)%Z /\ (0 <= 0)%Z
  /\ exists pre ps rest,
       Legacy.posts (Some 0%Z) (Some 0%Z) world0 = (Ok (map post_fields ps), bump_calls world0)
       /\ (pre ++ ps ++ rest)%list = posts world0.
Proof.
  split; [reflexivity|]. split; [lia|]. split; [lia|].
  pose proof (legacy_posts_slice 0 0 world0 ltac:(reflexivity) ltac:(lia) ltac:(lia)) as H.
  destruct H as (pre & ps & rest & H1 & H2 & _). exists pre, ps, rest. auto.
Defined.

Lemma createPost_without_id_witness :
  c_id legacy_claims0 = None /\ fault world0 = None
  /\ find_post (gen_oid (S (oid_counter world0))) (posts world0) = None
  /\ find_user_id (gen_oid (oid_counter world0)) (users world0) = None
  /\ exists r w', Mutation.createPost (Some legacy_claims0) data0 world0 = (Ok r, w')
       /\ fst (PostType.author r w') = Exn (null_read "_id").
Proof.
  split; [reflexivity|]. split; [reflexivity|].
  split; [vm_compute; reflexivity|]. split; [vm_compute; reflexivity|].
  pose proof (createPost_without_id legacy_claims0 data0 world0 ltac:(reflexivity)
    ltac:(reflexivity) ltac:(vm_compute; reflexivity) ltac:(vm_compute; reflexivity)) as H.
  destruct H as (r & w' & H1 & _ & _ & H2). exists r, w'. auto.
Defined.
